(** * pylibnidaqmx: the utility layer of [nidaqmx/utils.py]

    A shallow embedding of the two functions of [nidaqmx/utils.py] that
    carry logic of their own:

    - [CHK], which interprets the status code of a driver call, fetches the
      error text with a growing buffer and raises or warns;
    - [make_pattern], which compresses a list of channel paths into the
      range / alternation notation of NI-DAQmx.

    The code is Python 2 ([range] returns a list, [unicode] exists, string
    hashing is what orders a [set]).  Strings are modelled as ASCII
    [string]s, integers as [Z]. *)

From Stdlib Require Import ZArith String Ascii List DecimalString DecimalZ Lia.
From stdpp Require Import gmap strings list sorting.

Open Scope string_scope.
Open Scope list_scope.
Open Scope Z_scope.

(** ** Python values, exceptions and results *)

(** The exceptions that the two functions can let escape. *)
Inductive pyexn : Type :=
| NIDAQmxRuntimeError (msg : string)
| KeyError (key : Z)
| UnboundLocalError (name : string)
| AssertionError
| ValueError.

(** Outcome of running a piece of Python: a value, an exception, or the
    model ran out of fuel (shown below never to happen). *)
Inductive result (A : Type) : Type :=
| Ok (a : A)
| Raise (e : pyexn)
| OutOfFuel.
Arguments Ok {A} a.
Arguments Raise {A} e.
Arguments OutOfFuel {A}.

(** ** String primitives *)

(** [str(n)] and ['%d' % n] for an integer. *)
Definition str_of_Z (z : Z) : string := NilZero.string_of_int (Z.to_int z).

(** [sub in s]. *)
Fixpoint str_contains (sub s : string) : bool :=
  String.prefix sub s ||
  match s with
  | EmptyString => false
  | String _ s' => str_contains sub s'
  end.

(** [c * n] for a one-character string. *)
Fixpoint str_repeat (c : ascii) (n : nat) : string :=
  match n with
  | O => EmptyString
  | S n' => String c (str_repeat c n')
  end.

Definition newline : string := String (ascii_of_nat 10) EmptyString.

(** ** [constants.py] *)

Definition default_buf_size : Z := 3000.

(** ** [CHK]: the status resolver *)

(** What a call into the driver library does from Python's point of view:
    it returns a status, or the call raises [RuntimeError]. *)
Inductive call_outcome : Type :=
| Status (r : Z)
| RuntimeError (msg : string).

(** The two entry points of [libnidaqmx] that [CHK] uses.  Each receives the
    buffer (through [ctypes.byref], modelled by the [value] of the buffer
    before and after the call) and its size.  [CHK] calls each at most once
    per buffer size, so a function of the size describes any driver. *)
Record libnidaqmx_t : Type := {
  DAQmxGetExtendedErrorInfo : string -> Z -> call_outcome * string;
  DAQmxGetErrorString : Z -> string -> Z -> call_outcome * string
}.

(** Library functions of Python that [CHK] only uses for rendering text,
    over an arbitrary type [arg] of call arguments. *)
Record pytext (arg : Type) : Type := {
  str_tuple : list arg -> string;        (* '%s' % (args,) for the tuple *)
  repr_str : string -> string;           (* repr(buf.value) *)
  textwrap_wrap : string -> nat -> list string   (* textwrap.wrap *)
}.
Arguments str_tuple {arg} _ _.
Arguments repr_str {arg} _ _.
Arguments textwrap_wrap {arg} _ _ _.

(** What [CHK] does to the outside: lines written to [sys.stderr] and the
    sizes of the buffers created with [ctypes.create_string_buffer], both
    oldest first. *)
Record world : Type := {
  stderr : list string;
  buffers : list Z
}.

Definition write_stderr (line : string) (w : world) : world :=
  {| stderr := stderr w ++ [line]; buffers := buffers w |}.

Definition create_string_buffer (size : Z) (w : world) : world :=
  {| stderr := stderr w; buffers := buffers w ++ [size] |}.

Definition world0 : world := {| stderr := []; buffers := [] |}.

(** The local variables of [CHK] that the retry loop assigns; [None] is a
    name not bound yet. *)
Record locals : Type := {
  buf_size : Z;
  r : option Z;
  buf : option string
}.

Definition too_small : string := "Buffer is too small to fit the string".

Section CHK.
Context {arg : Type}.
Variable txt : pytext arg.
Variable libnidaqmx : libnidaqmx_t.
Variable error_map : gmap Z string.

(** The [while buf_size < 1000000] loop (lines 24-39).  [Ok] is the exit of
    the loop, by [break] or by the loop condition. *)
Fixpoint retry_loop (fuel : nat) (return_code : Z) (l : locals) (w : world)
  : result locals * world :=
  if buf_size l <? 1000000 then
    match fuel with
    | O => (OutOfFuel, w)
    | S fuel' =>
      let w := create_string_buffer (buf_size l) w in
      let handler (msg : string) (l' : locals) :=
        if str_contains too_small msg
        then retry_loop fuel' return_code
               {| buf_size := buf_size l' * 2; r := r l'; buf := buf l' |} w
        else (Raise (NIDAQmxRuntimeError msg), w) in
      match DAQmxGetExtendedErrorInfo libnidaqmx "" (buf_size l) with
      | (Status r1, b1) =>
        if negb (r1 =? 0) then
          match DAQmxGetErrorString libnidaqmx return_code b1 (buf_size l) with
          | (Status r2, b2) =>
            (Ok {| buf_size := buf_size l; r := Some r2; buf := Some b2 |}, w)
          | (RuntimeError msg, b2) =>
            handler msg
              {| buf_size := buf_size l; r := Some r1; buf := Some b2 |}
          end
        else
          (Ok {| buf_size := buf_size l; r := Some r1; buf := Some b1 |}, w)
      | (RuntimeError msg, b1) =>
        handler msg {| buf_size := buf_size l; r := r l; buf := Some b1 |}
      end
    end
  else (Ok l, w).

(** Doubling a positive size passes any bound [b] in [log2_up b] steps. *)
Definition retry_fuel : nat := Z.to_nat (Z.log2_up 1000000).

(** Reading a local variable. *)
Definition read_local {A B : Type} (name : string) (v : option A)
    (w : world) (k : A -> result B * world) : result B * world :=
  match v with
  | Some a => k a
  | None => (Raise (UnboundLocalError name), w)
  end.

(** Lines 40-56: raise or warn once the loop is left. *)
Definition report (return_code : Z) (funcname : string) (args : list arg)
    (l : locals) (w : world) : result Z * world :=
  read_local "r" (r l) w (fun rv =>
  if negb (rv =? 0) then
    if return_code <? 0 then
      match error_map !! return_code with
      | None => (Raise (KeyError return_code), w)
      | Some name =>
        read_local "buf" (buf l) w (fun value =>
        (Raise (NIDAQmxRuntimeError
                  (funcname +:+ str_tuple txt args +:+ " failed with error "
                   +:+ name +:+ "=" +:+ str_of_Z return_code +:+ ": "
                   +:+ repr_str txt value)), w))
      end
    else
      let warning := match error_map !! return_code with
                     | Some name => name
                     | None => str_of_Z return_code
                     end in
      (Ok return_code,
       write_stderr (funcname +:+ str_tuple txt args +:+ " warning: "
                     +:+ warning +:+ newline) w)
  else
    read_local "buf" (buf l) w (fun value =>
    let text := String.concat (newline +:+ "  ")
                  ([""] ++ textwrap_wrap txt value 80
                        ++ [str_repeat "-" 10]) in
    if return_code <? 0 then
      (Raise (NIDAQmxRuntimeError
                (funcname +:+ str_tuple txt args +:+ ":" +:+ text)), w)
    else
      (Ok return_code,
       write_stderr (funcname +:+ str_tuple txt args +:+ " warning:"
                     +:+ text +:+ newline) w))).

(** [CHK(return_code, funcname, *args)]. *)
Definition CHK (return_code : Z) (funcname : string) (args : list arg)
    (w : world) : result Z * world :=
  if return_code =? 0 then (Ok return_code, w)
  else
    match retry_loop retry_fuel return_code
            {| buf_size := default_buf_size; r := None; buf := None |} w with
    | (Ok l, w') => report return_code funcname args l w'
    | (Raise e, w') => (Raise e, w')
    | (OutOfFuel, w') => (OutOfFuel, w')
    end.
End CHK.

(** The sizes of the buffers of [n] consecutive attempts from size [b]. *)
Definition doubled (b : Z) (n : nat) : list Z :=
  (fun j : nat => b * 2 ^ Z.of_nat j) <$> seq 0 n.

(** The [try] block of one attempt (lines 27-32) seen from outside: the
    status that ends up in [r], or the [RuntimeError] that escapes. *)
Definition attempt (lib : libnidaqmx_t) (return_code size : Z)
  : call_outcome * string :=
  match DAQmxGetExtendedErrorInfo lib "" size with
  | (Status r1, b1) =>
    if negb (r1 =? 0) then DAQmxGetErrorString lib return_code b1 size
    else (Status r1, b1)
  | (RuntimeError msg, b1) => (RuntimeError msg, b1)
  end.

(** An attempt that returns, and one that asks for a larger buffer. *)
Definition fits (lib : libnidaqmx_t) (return_code size : Z) : Prop :=
  exists rv value, attempt lib return_code size = (Status rv, value).
Definition wants_more (lib : libnidaqmx_t) (return_code size : Z) : Prop :=
  exists msg value,
    attempt lib return_code size = (RuntimeError msg, value) /\
    str_contains too_small msg = true.

(** *** Concrete surroundings for the examples *)

(** Rendering of argument tuples of plain strings, of [repr] for strings
    without quotes or escapes, and of [textwrap.wrap] for one short word. *)
Definition plain_repr (s : string) : string := "'" +:+ s +:+ "'".
Definition plain_text : pytext string := {|
  str_tuple args :=
    match args with
    | [a] => "(" +:+ plain_repr a +:+ ",)"
    | _ => "(" +:+ String.concat ", " (plain_repr <$> args) +:+ ")"
    end;
  repr_str := plain_repr;
  textwrap_wrap s width := match s with EmptyString => [] | _ => [s] end
|}.

(** A table with one entry of [NIDAQmx.h]. *)
Definition error_map_example : gmap Z string :=
  {[ (-200088) := "InvalidTask" ]}.

(** A driver whose error-text lookup is not available. *)
Definition lib_unavailable : libnidaqmx_t := {|
  DAQmxGetExtendedErrorInfo value size :=
    (RuntimeError "NI-DAQmx is not running", value);
  DAQmxGetErrorString code value size :=
    (RuntimeError "NI-DAQmx is not running", value)
|}.

(** A driver that has no extended information (status 1) and whose
    error-string lookup never finds the buffer large enough. *)
Definition lib_never_fits : libnidaqmx_t := {|
  DAQmxGetExtendedErrorInfo value size := (Status 1, value);
  DAQmxGetErrorString code value size := (RuntimeError too_small, value)
|}.

(** A driver whose extended lookup itself never finds the buffer large
    enough. *)
Definition lib_never_fits_ext : libnidaqmx_t := {|
  DAQmxGetExtendedErrorInfo value size := (RuntimeError too_small, value);
  DAQmxGetErrorString code value size := (RuntimeError too_small, value)
|}.

(** A driver with extended information that fits at once. *)
Definition lib_extended : libnidaqmx_t := {|
  DAQmxGetExtendedErrorInfo value size := (Status 0, "Task specified is invalid");
  DAQmxGetErrorString code value size := (Status 0, "unused")
|}.

(** A driver without extended information whose error string needs a
    buffer of 10000 bytes. *)
Definition lib_generic : libnidaqmx_t := {|
  DAQmxGetExtendedErrorInfo value size := (Status (-1), value);
  DAQmxGetErrorString code value size :=
    if size <? 10000 then (RuntimeError too_small, value)
    else (Status 0, "Invalid task")
|}.

(** A driver both of whose lookups return a non-zero status. *)
Definition lib_no_text : libnidaqmx_t := {|
  DAQmxGetExtendedErrorInfo value size := (Status (-1), value);
  DAQmxGetErrorString code value size := (Status (-1), "unknown")
|}.

(** ** [make_pattern]: the pattern compressor *)

(** Sequencing of computations that may raise. *)
#[global] Instance result_bind : MBind result := fun A B k m =>
  match m with
  | Ok a => k a
  | Raise e => Raise e
  | OutOfFuel => OutOfFuel
  end.

(** *** Strings *)

(** [c.isdigit()] for an ASCII character. *)
Definition isdigit (c : ascii) : bool :=
  ((48 <=? nat_of_ascii c) && (nat_of_ascii c <=? 57))%nat.

(** [c.isspace()] for an ASCII character. *)
Definition isspace (c : ascii) : bool :=
  ((9 <=? nat_of_ascii c) && (nat_of_ascii c <=? 13)
   || (nat_of_ascii c =? 32))%nat.

(** [if path.startswith('/'): path = path[1:]]. *)
Definition strip_slash (path : string) : string :=
  match path with
  | String "/" rest => rest
  | _ => path
  end.

(** [path.split('/', 1)]: the part before the first slash and, in a list of
    at most one element, the part after it.  [(w, [])] is Python's
    one-element list. *)
Fixpoint split_slash (path : string) : string * list string :=
  match path with
  | EmptyString => (EmptyString, [])
  | String c rest =>
    if Ascii.eqb c "/" then (EmptyString, [rest])
    else let '(a, b) := split_slash rest in (String c a, b)
  end.

(** The [while i < len(word)] loop of lines 99-103: the index of the first
    digit of [word], or its length. *)
Fixpoint first_digit (word : string) : nat :=
  match word with
  | EmptyString => 0%nat
  | String c rest => if isdigit c then 0%nat else S (first_digit rest)
  end.

(** [word[:i]] and [word[i:]]. *)
Definition str_take (i : nat) (word : string) : string :=
  String.substring 0 i word.
Definition str_drop (i : nat) (word : string) : string :=
  String.substring i (String.length word - i) word.

(** [int(s)] of Python 2.6 and later for an ASCII string: blanks around an
    optionally signed, non-empty run of digits; [None] is [ValueError]. *)
Fixpoint lstrip (s : string) : string :=
  match s with
  | String c rest => if isspace c then lstrip rest else s
  | EmptyString => EmptyString
  end.

Fixpoint digits_value (acc : Z) (s : string) : option Z :=
  match s with
  | EmptyString => Some acc
  | String c rest =>
    if isdigit c
    then digits_value (acc * 10 + (Z.of_nat (nat_of_ascii c) - 48)) rest
    else None
  end.

Definition unsigned_value (s : string) : option Z :=
  match s with
  | EmptyString => None
  | _ => digits_value 0 s
  end.

Definition str_strip (s : string) : string :=
  String.rev (lstrip (String.rev (lstrip s))).

Definition int_of_str (s : string) : option Z :=
  match str_strip s with
  | String "-" ds => Z.opp <$> unsigned_value ds
  | String "+" ds => unsigned_value ds
  | ds => unsigned_value ds
  end.

(** [[int(i) for i in lst]], raising at the first element that is no
    integer. *)
Definition ints (lst : list string) : result (list Z) :=
  match mapM int_of_str lst with
  | Some vs => Ok vs
  | None => Raise ValueError
  end.

(** Python orders byte strings by their bytes. *)
Definition str_le (s1 s2 : string) : Prop := String.leb s1 s2 = true.
#[global] Instance str_le_dec : RelDecision str_le.
Proof. intros s1 s2. unfold str_le. apply _. Defined.

(** [sorted] on strings and on integers. *)
Definition sorted_str (l : list string) : list string := merge_sort str_le l.
Definition sorted_int (l : list Z) : list Z := merge_sort Z.le l.

(** [range(a, b)] of Python 2: the list of the integers from [a] up to but
    not including [b]. *)
Definition range (a b : Z) : list Z := seqZ a (b - a).

(** *** Sets and the dictionary of the groups

    [patterns] maps a prefix to a [set] of remainders.  The order in which
    CPython iterates over a set depends on the hashes of its elements and
    on the insertions made, and [list(patterns[prefix])] exposes it to the
    recursive call.  A set is therefore modelled by the list of its
    elements in the order of their first insertion, and the iteration order
    by a function [set_iter] of that history, of which the development only
    assumes that it enumerates the elements once each. *)
Definition pyset : Type := list string.

Definition set_add (x : string) (s : pyset) : pyset :=
  if decide (x ∈ s) then s else s ++ [x].

(** [s.update(xs)]. *)
Definition set_update (s : pyset) (xs : list string) : pyset :=
  foldl (fun s x => set_add x s) s xs.

(** An admissible iteration order. *)
Definition iter_ok (set_iter : pyset -> list string) : Prop :=
  forall s : pyset, NoDup s -> set_iter s ≡ₚ s.

(** *** The grouping loop (lines 88-109) *)

(** Lines 106-109 for one [splitted]. *)
Definition add_group (patterns : gmap string pyset)
    (splitted : string * list string) : gmap string pyset :=
  let l := default [] (patterns !! splitted.1) in
  <[splitted.1 := set_update l splitted.2]> patterns.

(** The body of [for path in paths] on the state [(patterns, flag)]. *)
Definition group_path (st : gmap string pyset * bool) (path : string)
  : result (gmap string pyset * bool) :=
  let '(patterns, flag) := st in
  let path := strip_slash path in
  let splitted := split_slash path in
  if (length (splitted.1 :: splitted.2) =? 1)%nat then
    if bool_decide (patterns ≠ ∅) && negb flag then Raise AssertionError
    else
      let word := splitted.1 in
      let i := first_digit word in
      Ok (add_group patterns (str_take i word, [str_drop i word]), true)
  else Ok (add_group patterns splitted, flag).

Fixpoint group_paths (st : gmap string pyset * bool) (paths : list string)
  : result (gmap string pyset * bool) :=
  match paths with
  | [] => Ok st
  | path :: paths' => st' ← group_path st path; group_paths st' paths'
  end.

(** *** The emission loop (lines 110-145) *)

(** Lines 127-128: [if ',' in subpattern: subpattern = '{%s}' % subpattern]. *)
Definition braces (subpattern : string) : string :=
  if str_contains "," subpattern then "{" +:+ subpattern +:+ "}"
  else subpattern.

(** What one turn of [for prefix in sorted(patterns.keys())] does: append a
    piece to [r], or return from the function. *)
Inductive turn : Type :=
| Append (piece : string)
| Return (v : option string).

Section make_pattern.
Variable set_iter : pyset -> list string.

Section body.
(** [make_pattern(lst, _main=False)] of the recursive call. *)
Variable recurse : list string -> result (option string).
Variable paths : list string.
Variable _main : bool.

(** Lines 134-141: the remainders under the empty prefix. *)
Definition emit_ints (lst : list string) : result turn :=
  vs ← ints lst;
  let slst := sorted_int vs in
  if (length slst =? 1)%nat then Ok (Append (str_of_Z (List.hd 0 slst)))
  else if bool_decide (slst = range (List.hd 0 slst) (List.last slst 0 + 1))
  then Ok (Append (str_of_Z (List.hd 0 slst) +:+ ":" +:+ str_of_Z (List.last slst 0)))
  else Ok (Return None).

(** Lines 112-144 for one [prefix] with [lst = list(patterns[prefix])]. *)
Definition emit_prefix (flag : bool) (prefix : string)
    (lst : list string) : result turn :=
  match lst with
  | [x] =>
    if flag then Ok (Append (prefix +:+ x))
    else Ok (Append (prefix +:+ "/" +:+ x))
  | _ :: _ =>
    if negb (String.eqb prefix "") then
      sub ← recurse lst;
      match sub with
      | None =>
        if _main then Ok (Return (Some (String.concat "," paths)))
        else Ok (Return None)
      | Some subpattern =>
        let subpattern := braces subpattern in
        if flag then Ok (Append (prefix +:+ subpattern))
        else Ok (Append (prefix +:+ "/" +:+ subpattern))
      end
    else emit_ints lst
  | [] => Ok (Append prefix)
  end.

Fixpoint emit_all (patterns : gmap string pyset) (flag : bool)
    (keys : list string) (r : list string) : result (option string) :=
  match keys with
  | [] => Ok (Some (String.concat "," r))
  | prefix :: keys' =>
    t ← emit_prefix flag prefix (set_iter (patterns !!! prefix));
    match t with
    | Append piece => emit_all patterns flag keys' (r ++ [piece])
    | Return v => Ok v
    end
  end.

(** The body of [make_pattern]. *)
Definition make_pattern_body : result (option string) :=
  '(patterns, flag) ← group_paths (∅, false) paths;
  emit_all patterns flag (sorted_str (elements (dom patterns))) [].
End body.

(** [make_pattern(paths, _main)], the recursion unfolded [fuel] deep. *)
Fixpoint make_pattern_fuel (fuel : nat) (paths : list string)
    (_main : bool) : result (option string) :=
  match fuel with
  | O => OutOfFuel
  | S fuel' =>
    make_pattern_body (fun lst => make_pattern_fuel fuel' lst false)
                      paths _main
  end.

(** The length of the longest path bounds the depth of the recursion:
    every recursive call is on strictly shorter strings. *)
Definition max_len (paths : list string) : nat :=
  foldr Nat.max 0%nat (String.length <$> paths).

Definition make_pattern (paths : list string) (_main : bool)
  : result (option string) :=
  make_pattern_fuel (S (max_len paths)) paths _main.
End make_pattern.

(** The order of insertion is an admissible iteration order. *)
Definition insertion_order : pyset -> list string := fun s => s.

(** The paths of [_test_make_pattern]. *)
Definition test_paths : list string :=
  ["Dev1/ao1"; "Dev1/ao2"; "Dev1/ao3"; "Dev1/ao4";
   "Dev1/ao5"; "Dev1/ao6"; "Dev1/ao7"].


(** The paths after the additions of [_test_make_pattern] up to the analog
    inputs. *)
Definition test_paths_ai : list string :=
  test_paths ++ ["Dev0/ao1"; "Dev0/ao0"; "Dev1/ai1"; "Dev1/ai2"; "Dev1/ai3"].

(** *** Notions used in the statements about [make_pattern] *)

(** A path is bare when, with its leading slash stripped, [split('/', 1)]
    leaves it in one piece. *)
Definition is_bare (path : string) : bool :=
  match (split_slash (strip_slash path)).2 with
  | [] => true
  | _ => false
  end.

(** The [splitted] with which a path reaches line 106. *)
Definition parts (path : string) : string * list string :=
  let splitted := split_slash (strip_slash path) in
  if is_bare path then
    let word := splitted.1 in
    (str_take (first_digit word) word, [str_drop (first_digit word) word])
  else splitted.

Definition key_of (path : string) : string := (parts path).1.
Definition rem_of (path : string) : string := List.hd "" (parts path).2.

(** The elements of [patterns[k]], none if [k] is no key. *)
Definition members (patterns : gmap string pyset) (k : string) : pyset :=
  default [] (patterns !! k).

(** Two lists of paths with the same elements: equal up to order and
    repetitions. *)
Definition same_paths (l1 l2 : list string) : Prop :=
  forall p : string, p ∈ l1 <-> p ∈ l2.

(** Paths that are all bare, or all of several segments. *)
Definition one_kind (b : bool) (paths : list string) : Prop :=
  forall p, p ∈ paths -> is_bare p = b.

(** The remainders that the paths of [l] leave under the prefix [k]. *)
Definition remainders (k : string) (l : list string) : list string :=
  rem_of <$> filter (fun p => key_of p = k) l.

(** The depth convention of the paths: at every level of the recursion,
    [depth] levels deep, the paths of a call are all bare or all made of
    several segments. *)
Fixpoint uniform (depth : nat) (l : list string) : bool :=
  match depth with
  | O => true
  | S depth' =>
    if forallb is_bare l then true
    else if forallb (fun p => negb (is_bare p)) l
    then forallb (fun p => uniform depth' (remainders (key_of p) l)) l
    else false
  end.

(** Agreement of two results up to what the claims leave open. *)
Definition rel_result {A : Type} (P : A -> A -> Prop) (r1 r2 : result A)
  : Prop :=
  r1 = Raise AssertionError \/ r2 = Raise AssertionError \/
  match r1, r2 with
  | Ok a1, Ok a2 => P a1 a2
  | Raise e1, Raise e2 => e1 = e2
  | OutOfFuel, OutOfFuel => True
  | _, _ => False
  end.

(** Two returned values agree when they are equal or when both calls fell
    back to their own comma-joined input. *)
Definition agree (_main : bool) (l1 l2 : list string)
    (v1 v2 : option string) : Prop :=
  v1 = v2 \/
  (_main = true /\ v1 = Some (String.concat "," l1)
   /\ v2 = Some (String.concat "," l2)).

Definition agree_turn (_main : bool) (l1 l2 : list string) (t1 t2 : turn)
  : Prop :=
  t1 = t2 \/
  (_main = true /\ t1 = Return (Some (String.concat "," l1))
   /\ t2 = Return (Some (String.concat "," l2))).

(** [c in s] for a character. *)
Fixpoint has_char (c : ascii) (s : string) : bool :=
  match s with
  | EmptyString => false
  | String c' s' => Ascii.eqb c' c || has_char c s'
  end.

(** A driver that refuses the lookup once the buffer has 12000 bytes. *)
Definition lib_breaks : libnidaqmx_t := {|
  DAQmxGetExtendedErrorInfo value size :=
    if size <? 12000 then (RuntimeError too_small, value)
    else (RuntimeError "Device disconnected", value);
  DAQmxGetErrorString code value size := (Status 0, "unused")
|}.


(** [all(f(c) for c in s)]. *)
Fixpoint str_forall (f : ascii -> bool) (s : string) : bool :=
  match s with
  | EmptyString => true
  | String c s' => f c && str_forall f s'
  end.


(** ** [CALL] and the methods built on it

    The functions of the library are stateful: the driver has a state of
    type [D] that every call may change.  A function receives the
    arguments, returns its status and leaves values in the objects that
    were passed by reference; the caller reads them once [CALL] has
    returned. *)

(** The arguments that the methods pass to [CALL]. *)
Inductive pyarg : Type :=
| Unicode (s : string)       (* a [unicode] string *)
| Bytes (s : string)         (* a byte string: [str] of Python 2 *)
| Int (n : Z)                (* a number *)
| Object (name : string).    (* a task, a ctypes object or a reference *)

(** [isinstance(a, unicode)] and [bytes(a)] (for ASCII text). *)
Definition isinstance_unicode (a : pyarg) : bool :=
  match a with
  | Unicode _ => true
  | _ => false
  end.
Definition bytes (a : pyarg) : pyarg :=
  match a with
  | Unicode s => Bytes s
  | _ => a
  end.

(** What a call of a library function leaves behind: the status it
    returns and the contents, after the call, of the integer object and of
    the string buffer passed by reference (0 and the empty string when
    there is none or when it was not written). *)
Record outcome : Type := {
  status : Z;
  out_value : Z;
  out_text : string
}.

(** [libnidaqmx]: its functions by name, and its two error lookups, in a
    state of the driver. *)
Record libnidaqmx_funcs (D : Type) : Type := {
  lib_getattr : string -> list pyarg -> D -> outcome * D;
  lib_errors : D -> libnidaqmx_t
}.
Arguments lib_getattr {D} _ _ _ _.
Arguments lib_errors {D} _ _.

(** Constants of [NIDAQmx.h] that the methods below use.  The header
    module that defines them is generated at the first run and is not part
    of the sources. *)
Record DAQmx_t : Type := {
  Val_Task_Start : Z; Val_Task_Stop : Z; Val_Task_Verify : Z;
  Val_Task_Commit : Z; Val_Task_Reserve : Z; Val_Task_Unreserve : Z;
  Val_Task_Abort : Z;
  Val_PCI : Z; Val_PCIe : Z; Val_PXI : Z; Val_SCXI : Z; Val_PCCard : Z;
  Val_USB : Z; Val_Unknown : Z;
  Val_GroupByChannel : Z; Val_GroupByScanNumber : Z
}.

(** [d.value] of a [uInt32] and of an [int32] in which the library left
    [v]. *)
Definition uInt32_value (v : Z) : Z := v mod 2 ^ 32.
Definition int32_value (v : Z) : Z := (v + 2 ^ 31) mod 2 ^ 32 - 2 ^ 31.

(** [s.split(sep)] for a one-character separator. *)
Fixpoint str_split (sep : ascii) (s : string) : list string :=
  match s with
  | EmptyString => [EmptyString]
  | String c s' =>
    if Ascii.eqb c sep then EmptyString :: str_split sep s'
    else match str_split sep s' with
         | piece :: pieces => String c piece :: pieces
         | [] => [String c EmptyString]
         end
  end.

(** [[n.strip() for n in value.split(',') if n.strip()]], the parsing of a
    list of names that the library left in a buffer ([device.py], line 66
    and its seven copies; [system.py], lines 63, 75 and 87; [task.py],
    lines 250 and 275). *)
Definition parse_names (value : string) : list string :=
  filter (fun n => n <> "") (str_strip <$> str_split "," value).

(** [Task._get_map_value(label, map_, key)] ([task.py], lines 183-191). *)
Definition _get_map_value (map_ : gmap string Z) (key : string) : result Z :=
  match map_ !! key with
  | None => Raise ValueError
  | Some val => Ok val
  end.

(** [Task._set_channel_type(t)] on the attribute [channel_type]
    ([task.py], lines 75-83). *)
Definition channel_types : list string := ["AI"; "AO"; "DI"; "DO"; "CI"; "CO"].

Definition _set_channel_type (channel_type : option string) (t : string)
  : result (option string) :=
  if bool_decide (t ∈ channel_types) then
    match channel_type with
    | None => Ok (Some t)
    | Some t0 =>
      if negb (String.eqb t0 t) then Raise ValueError else Ok channel_type
    end
  else Raise AssertionError.

(** [Task.channel_io_type] ([task.py], lines 85-96): the string returned,
    the [TypeError] of line 94, or the [IndexError] of [t[1]] on a string
    of fewer than two characters. *)
Inductive io_type : Type :=
| IOType (s : string)
| IOTypeError
| IOIndexError.

Definition channel_io_type (channel_type : option string) : io_type :=
  match channel_type with
  | None => IOTypeError
  | Some t =>
    match String.get 1 t with
    | None => IOIndexError
    | Some c => IOType (if Ascii.eqb c "I" then "input" else "output")
    end
  end.

(** numpy arrays are modelled by their shape: [reshape] keeps the elements
    and their order, and raises [ValueError] when the sizes differ. *)
Definition np_size (shape : list Z) : Z := foldr Z.mul 1 shape.

Definition np_reshape (shape new_shape : list Z) : result (list Z) :=
  if np_size shape =? np_size new_shape then Ok new_shape
  else Raise ValueError.

(** Lines 196-221 of [Task._reshape_data], for the number of channels that
    line 194 has read from the driver. *)
Definition reshape_data (number_of_channels : Z) (shape : list Z)
    (layout : string) : result (list Z * Z) :=
  if number_of_channels =? 0 then Raise ValueError
  else
    match shape with
    | [n] =>
      if number_of_channels =? 1 then
        let samples_per_channel := n in
        if String.eqb layout "group_by_scan_number" then
          data ← np_reshape shape [samples_per_channel; 1];
          Ok (data, samples_per_channel)
        else
          data ← np_reshape shape [1; samples_per_channel];
          Ok (data, samples_per_channel)
      else
        let samples_per_channel := np_size shape / number_of_channels in
        if String.eqb layout "group_by_scan_number" then
          data ← np_reshape shape [samples_per_channel; number_of_channels];
          Ok (data, samples_per_channel)
        else
          data ← np_reshape shape [number_of_channels; samples_per_channel];
          Ok (data, samples_per_channel)
    | [rows; columns] =>
      if String.eqb layout "group_by_scan_number" then
        if columns =? number_of_channels then Ok (shape, rows)
        else Raise AssertionError
      else
        if rows =? number_of_channels then Ok (shape, columns)
        else Raise AssertionError
    | _ => Raise AssertionError
    end.

Section methods.
Context {D : Type}.
Variable txt : pytext pyarg.
Variable libnidaqmx : libnidaqmx_funcs D.
Variable error_map : gmap Z string.
Variable DAQmx : DAQmx_t.

(** A piece of Python that runs in a state of the driver and of the
    world. *)
Definition py (A : Type) : Type := D * world -> result A * (D * world).

#[global] Instance py_ret : MRet py := fun A a st => (Ok a, st).
#[global] Instance py_bind : MBind py := fun A B k m st =>
  match m st with
  | (Ok a, st') => k a st'
  | (Raise e, st') => (Raise e, st')
  | (OutOfFuel, st') => (OutOfFuel, st')
  end.

(** A computation without effects. *)
Definition py_lift {A : Type} (res : result A) : py A := fun st => (res, st).

(** [ctypes.create_string_buffer(b'\000' * buf_size)]; the log of the
    world holds the length of the initial bytes. *)
Definition py_buffer (buf_size : Z) : py unit :=
  fun '(d, w) => (Ok tt, (d, create_string_buffer (Z.max 0 buf_size) w)).

(** [CALL(name, *args)] ([utils.py], lines 60-75): the status that [CHK]
    returns, with what the function left in the objects passed by
    reference. *)
Definition CALL (name : string) (args : list pyarg) : py (Z * outcome) :=
  fun '(d, w) =>
    let funcname := "DAQmx" +:+ name in
    let new_args :=
      (fun a => if isinstance_unicode a then bytes a else a) <$> args in
    let '(o, d') := lib_getattr libnidaqmx funcname new_args d in
    match CHK txt (lib_errors libnidaqmx d') error_map (status o)
            funcname new_args w with
    | (Ok r0, w') => (Ok (r0, o), (d', w'))
    | (Raise e, w') => (Raise e, (d', w'))
    | (OutOfFuel, w') => (OutOfFuel, (d', w'))
    end.

(** [Task.start] and [Task.stop] ([task.py], lines 137-180). *)
Definition start (self : pyarg) : py bool :=
  '(r0, _) ← CALL "StartTask" [self]; mret (r0 =? 0).
Definition stop (self : pyarg) : py bool :=
  '(r0, _) ← CALL "StopTask" [self]; mret (r0 =? 0).

(** [Task.get_number_of_channels] ([task.py], lines 223-229). *)
Definition get_number_of_channels (self : pyarg) : py Z :=
  '(_, o) ← CALL "GetTaskNumChans" [self; Object "byref(d)"];
  mret (uInt32_value (out_value o)).

(** [Task.alter_state] ([task.py], lines 278-325). *)
Definition state_map : gmap string Z :=
  <["start" := Val_Task_Start DAQmx]>
  (<["stop" := Val_Task_Stop DAQmx]>
  (<["verify" := Val_Task_Verify DAQmx]>
  (<["commit" := Val_Task_Commit DAQmx]>
  (<["reserve" := Val_Task_Reserve DAQmx]>
  (<["unreserve" := Val_Task_Unreserve DAQmx]>
  (<["abort" := Val_Task_Abort DAQmx]> ∅)))))).

Definition alter_state (self : pyarg) (state : string) : py bool :=
  state_val ← py_lift (_get_map_value state_map state);
  '(r0, _) ← CALL "TaskControl" [self; Int state_val];
  mret (r0 =? 0).

(** The methods that read a list of names: [Device.get_*_channels],
    [get_*_lines], [get_*_ports] ([device.py], lines 46-228) and
    [Task.get_devices] ([task.py], lines 255-276), which differ in the
    name of the library function. *)
Definition get_names (name : string) (self : pyarg) (buf_size : option Z)
  : py (list string) :=
  let buf_size := default default_buf_size buf_size in
  _ ← py_buffer buf_size;
  '(_, o) ← CALL name [self; Object "byref(buf)"; Int buf_size];
  mret (parse_names (out_text o)).

Definition get_digital_input_lines := get_names "GetDevDILines".
Definition get_digital_input_ports := get_names "GetDevDIPorts".
Definition get_digital_output_lines := get_names "GetDevDOLines".
Definition get_digital_output_ports := get_names "GetDevDOPorts".
Definition get_counter_input_channels := get_names "GetDevCIPhysicalChans".
Definition get_counter_output_channels := get_names "GetDevCOPhysicalChans".
Definition get_devices := get_names "GetTaskDevices".


(** [Task._reshape_data] ([task.py], lines 193-221). *)
Definition _reshape_data (self : pyarg) (shape : list Z) (layout : string)
  : py (list Z * Z) :=
  number_of_channels ← get_number_of_channels self;
  py_lift (reshape_data number_of_channels shape layout).

(** [Device.get_bus_type] ([device.py], lines 230-243).  In a dict
    display with a repeated key the last value stays. *)
Definition bus_types : list (Z * string) :=
  [(Val_PCI DAQmx, "PCI"); (Val_PCIe DAQmx, "PCIe");
   (Val_PXI DAQmx, "PXI"); (Val_SCXI DAQmx, "SCXI");
   (Val_PCCard DAQmx, "PCCard"); (Val_USB DAQmx, "USB");
   (Val_Unknown DAQmx, "UNKNOWN")].

Definition bus_type_map : gmap Z string := list_to_map (reverse bus_types).

Definition get_bus_type (self : pyarg) : py string :=
  '(_, o) ← CALL "GetDevBusType" [self; Object "byref(d)"];
  match bus_type_map !! int32_value (out_value o) with
  | Some t => mret t
  | None => py_lift (Raise (KeyError (int32_value (out_value o))))
  end.


End methods.

(** *** A driver for the examples

    Its state counts the calls made.  The task has the three channels
    [Dev1/ai0] to [Dev1/ai2]; [Dev1] has the analog inputs [ai0] to [ai3] and no analog output;
    starting the task succeeds, stopping it gives the warning 7, a read
    gets two samples, and every other function fails with [InvalidTask]. *)
Definition no_output (r0 : Z) : outcome :=
  {| status := r0; out_value := 0; out_text := "" |}.

Definition lib_example : libnidaqmx_funcs nat := {|
  lib_getattr funcname args d :=
    (if String.eqb funcname "DAQmxGetTaskNumChans"
     then {| status := 0; out_value := 3; out_text := "" |}
     else if String.eqb funcname "DAQmxGetDevAIPhysicalChans"
     then {| status := 0; out_value := 0;
             out_text := "Dev1/ai0, Dev1/ai1, Dev1/ai2, Dev1/ai3" |}
     else if String.eqb funcname "DAQmxGetTaskChannels"
     then {| status := 0; out_value := 0;
             out_text := "Dev1/ai0, Dev1/ai1, Dev1/ai2" |}
     else if String.eqb funcname "DAQmxGetDevAOPhysicalChans"
     then no_output 0
     else if String.eqb funcname "DAQmxStartTask" then no_output 0
     else if String.eqb funcname "DAQmxStopTask" then no_output 7
     else if String.eqb funcname "DAQmxTaskControl" then no_output 0
     else if String.eqb funcname "DAQmxGetDevBusType"
     then {| status := 0; out_value := 12345; out_text := "" |}
     else if String.eqb funcname "DAQmxReadAnalogF64"
     then {| status := 0; out_value := 2; out_text := "" |}
     else if String.eqb funcname "DAQmxReadCounterU32"
     then {| status := 0; out_value := 2; out_text := "" |}
     else no_output (-200088),
     S d);
  lib_errors d := lib_generic
|}.

(** Values for the constants, as in the header of NI-DAQmx 8. *)
Definition DAQmx_example : DAQmx_t := {|
  Val_Task_Start := 0; Val_Task_Stop := 1; Val_Task_Verify := 2;
  Val_Task_Commit := 3; Val_Task_Reserve := 4; Val_Task_Unreserve := 5;
  Val_Task_Abort := 6;
  Val_PCI := 12582; Val_PCIe := 13612; Val_PXI := 12583; Val_SCXI := 12584;
  Val_PCCard := 12585; Val_USB := 12586; Val_Unknown := 12588;
  Val_GroupByChannel := 0; Val_GroupByScanNumber := 1
|}.

(** Rendering of the arguments of the examples. *)
Definition pyarg_text : pytext pyarg := {|
  str_tuple args :=
    "(" +:+ String.concat ", "
              ((fun a => match a with
                         | Unicode s => "u" +:+ plain_repr s
                         | Bytes s => plain_repr s
                         | Int n => str_of_Z n
                         | Object name => name
                         end) <$> args) +:+ ")";
  repr_str := plain_repr;
  textwrap_wrap s width := match s with EmptyString => [] | _ => [s] end
|}.

(** The names under which [alter_state] knows the states. *)
Definition state_names : list string :=
  ["start"; "stop"; "verify"; "commit"; "reserve"; "unreserve"; "abort"].




(** *** Reading samples

    numpy arrays are modelled by their shape.  [np.zeros(shape)] raises
    [ValueError] for a negative dimension; [slice_stop stop n] is the
    length of [a[:stop]] for [a] of length [n]. *)
Definition np_zeros (shape : list Z) : result (list Z) :=
  if forallb (Z.leb 0) shape then Ok shape else Raise ValueError.

Definition slice_stop (stop n : Z) : Z :=
  if stop <? 0 then Z.max 0 (n + stop) else Z.min stop n.

Section reads.
Context {D : Type}.
Variable txt : pytext pyarg.
Variable libnidaqmx : libnidaqmx_funcs D.
Variable error_map : gmap Z string.
Variable DAQmx : DAQmx_t.

(** [Task.get_samples_per_channel_available] ([task.py], lines
    1684-1691). *)
Definition get_samples_per_channel_available (self : pyarg) : py Z :=
  '(_, o) ← CALL txt libnidaqmx error_map "GetReadAvailSampPerChan"
              [self; Object "byref(d)"];
  mret (uInt32_value (out_value o)).

Definition fill_mode_map : gmap string Z :=
  <["group_by_channel" := Val_GroupByChannel DAQmx]>
  (<["group_by_scan_number" := Val_GroupByScanNumber DAQmx]> ∅).

(** [AnalogInputTask.read] ([analog.py], lines 151-241): the shape of the
    array returned. *)
Definition AnalogInputTask_read (self : pyarg)
    (samples_per_channel : option Z) (fill_mode : string) : py (list Z) :=
  fill_mode_val ← py_lift (_get_map_value fill_mode_map fill_mode);
  samples_per_channel ←
    match samples_per_channel with
    | None => get_samples_per_channel_available self
    | Some n => mret n
    end;
  number_of_channels ← get_number_of_channels txt libnidaqmx error_map self;
  data ← py_lift
    (if String.eqb fill_mode "group_by_scan_number"
     then np_zeros [samples_per_channel; number_of_channels]
     else np_zeros [number_of_channels; samples_per_channel]);
  '(_, o) ← CALL txt libnidaqmx error_map "ReadAnalogF64"
              [self; Int samples_per_channel; Object "float64(timeout)";
               Int fill_mode_val; Object "data.ctypes.data";
               Int (np_size data); Object "byref(samples_read)";
               Object "None"];
  let samples_read := int32_value (out_value o) in
  if samples_per_channel <? samples_read then
    if String.eqb fill_mode "group_by_scan_number"
    then mret [slice_stop samples_read samples_per_channel;
               number_of_channels]
    else mret [number_of_channels;
               slice_stop samples_read samples_per_channel]
  else mret data.

(** [CounterInputTask.read] ([counter.py], lines 462-522). *)
Definition CounterInputTask_read (self : pyarg)
    (samples_per_channel : option Z) : py (list Z) :=
  samples_per_channel ←
    match samples_per_channel with
    | None => get_samples_per_channel_available self
    | Some n => mret n
    end;
  data ← py_lift (np_zeros [samples_per_channel]);
  '(_, o) ← CALL txt libnidaqmx error_map "ReadCounterU32"
              [self; Int samples_per_channel; Object "float64(timeout)";
               Object "data.ctypes.data"; Int (np_size data);
               Object "byref(samples_read)"; Object "None"];
  mret [slice_stop (int32_value (out_value o)) samples_per_channel].
End reads.

(** *** The self-test of [make_pattern] *)

(** [assert make_pattern(paths) == expected]. *)
Definition assert_pattern (got : option string) (expected : string)
  : result unit :=
  match got with
  | Some s => if String.eqb s expected then Ok tt else Raise AssertionError
  | None => Raise AssertionError
  end.

(** [_test_make_pattern] ([utils.py], lines 148-170). *)
Definition _test_make_pattern (set_iter : pyset -> list string)
  : result unit :=
  let paths := ["Dev1/ao1"; "Dev1/ao2"; "Dev1/ao3"; "Dev1/ao4";
                "Dev1/ao5"; "Dev1/ao6"; "Dev1/ao7"] in
  got ← make_pattern set_iter paths true;
  _ ← assert_pattern got "Dev1/ao1:7";
  let paths := paths ++ ["Dev0/ao1"] in
  got ← make_pattern set_iter paths true;
  _ ← assert_pattern got "Dev0/ao1,Dev1/ao1:7";
  let paths := paths ++ ["Dev0/ao0"] in
  got ← make_pattern set_iter paths true;
  _ ← assert_pattern got "Dev0/ao0:1,Dev1/ao1:7";
  let paths := paths ++ ["Dev1/ai1"; "Dev1/ai2"; "Dev1/ai3"] in
  got ← make_pattern set_iter paths true;
  _ ← assert_pattern got "Dev0/ao0:1,Dev1/{ai1:3,ao1:7}";
  let paths := paths ++ ["Dev2/port0/line0"] in
  got ← make_pattern set_iter paths true;
  _ ← assert_pattern got "Dev0/ao0:1,Dev1/{ai1:3,ao1:7},Dev2/port0/line0";
  let paths := paths ++ ["Dev2/port0/line1"] in
  got ← make_pattern set_iter paths true;
  _ ← assert_pattern got "Dev0/ao0:1,Dev1/{ai1:3,ao1:7},Dev2/port0/line0:1";
  let paths := paths ++ ["Dev2/port1/line0"; "Dev2/port1/line1"] in
  got ← make_pattern set_iter paths true;
  assert_pattern got
    "Dev0/ao0:1,Dev1/{ai1:3,ao1:7},Dev2/{port0/line0:1,port1/line0:1}".
(** * Properties of [CHK] *)

Section CHK_facts.
Context {arg : Type}.
Variable txt : pytext arg.
Variable libnidaqmx : libnidaqmx_t.
Variable error_map : gmap Z string.

Lemma doubled_S b n : doubled b (S n) = b :: doubled (b * 2) n.
Proof.
  unfold doubled. cbn [seq fmap list_fmap]. f_equal.
  - change (Z.of_nat 0) with 0. lia.
  - rewrite <- seq_shift, <- list_fmap_compose. apply list_fmap_ext.
    intros _ j _. cbn. rewrite Nat2Z.inj_succ, Z.pow_succ_r by lia. lia.
Qed.

(** The loop only allocates: it writes nothing to [stderr], and its
    buffers are the doublings of the size it starts from, each below the
    bound. *)
Lemma retry_loop_buffers fuel return_code l w res w' :
  retry_loop libnidaqmx fuel return_code l w = (res, w') ->
  stderr w' = stderr w /\
  exists n : nat,
    buffers w' = buffers w ++ doubled (buf_size l) n /\
    Forall (fun s => s < 1000000) (doubled (buf_size l) n).
Proof.
  revert l w. induction fuel as [|fuel IH]; intros l w; cbn [retry_loop].
  - destruct (buf_size l <? 1000000); intros [= <- <-];
      (split; [done|]; exists 0%nat; cbn; rewrite app_nil_r; auto).
  - destruct (buf_size l <? 1000000) eqn:Hlt.
    2:{ intros [= <- <-]. split; [done|].
        exists 0%nat; cbn; rewrite app_nil_r; auto. }
    apply Z.ltb_lt in Hlt.
    assert (Hone : forall res0 w0,
               (res0, w0) = (res, w') ->
               w0 = create_string_buffer (buf_size l) w ->
               stderr w' = stderr w /\
               exists n : nat,
                 buffers w' = buffers w ++ doubled (buf_size l) n /\
                 Forall (fun s => s < 1000000) (doubled (buf_size l) n)).
    { intros res0 w0 [= <- <-] ->. split; [done|]. exists 1%nat.
      unfold doubled; cbn. rewrite Z.mul_1_r. auto. }
    assert (Hmore : forall r0 b0,
               retry_loop libnidaqmx fuel return_code
                 {| buf_size := buf_size l * 2; r := r0; buf := b0 |}
                 (create_string_buffer (buf_size l) w) = (res, w') ->
               stderr w' = stderr w /\
               exists n : nat,
                 buffers w' = buffers w ++ doubled (buf_size l) n /\
                 Forall (fun s => s < 1000000) (doubled (buf_size l) n)).
    { intros r0 b0 Hrec. apply IH in Hrec as [Herr (n & Hb & Hall)].
      cbn in Herr, Hb, Hall. split; [done|]. exists (S n).
      rewrite doubled_S. split.
      - rewrite Hb, <- app_assoc. done.
      - constructor; done. }
    destruct (DAQmxGetExtendedErrorInfo libnidaqmx "" (buf_size l))
      as [[r1|msg] b1].
    + destruct (negb (r1 =? 0)); [|intros H; eapply Hone; eauto].
      destruct (DAQmxGetErrorString libnidaqmx return_code b1 (buf_size l))
        as [[r2|msg] b2]; [intros H; eapply Hone; eauto|].
      destruct (str_contains too_small msg); cbn [buf_size r buf].
      * apply Hmore.
      * intros H; eapply Hone; eauto.
    + destruct (str_contains too_small msg); cbn [buf_size r buf].
      * apply Hmore.
      * intros H; eapply Hone; eauto.
Qed.

(** With enough fuel to double past the bound, the loop finishes. *)
Lemma retry_loop_fuel fuel return_code l w :
  1 <= buf_size l ->
  1000000 <= buf_size l * 2 ^ Z.of_nat fuel ->
  (retry_loop libnidaqmx fuel return_code l w).1 <> OutOfFuel.
Proof.
  revert l w. induction fuel as [|fuel IH]; intros l w Hpos Hbig;
    cbn [retry_loop].
  - change (Z.of_nat 0) with 0 in Hbig.
    destruct (buf_size l <? 1000000) eqn:Hlt; [|done].
    apply Z.ltb_lt in Hlt. lia.
  - destruct (buf_size l <? 1000000) eqn:Hlt; [|done].
    rewrite Nat2Z.inj_succ, Z.pow_succ_r in Hbig by lia.
    assert (Hmore : forall r0 b0 w0,
               (retry_loop libnidaqmx fuel return_code
                  {| buf_size := buf_size l * 2; r := r0; buf := b0 |} w0).1
               <> OutOfFuel).
    { intros. apply IH; cbn; lia. }
    destruct (DAQmxGetExtendedErrorInfo libnidaqmx "" (buf_size l))
      as [[r1|msg] b1].
    + destruct (negb (r1 =? 0)); [|done].
      destruct (DAQmxGetErrorString libnidaqmx return_code b1 (buf_size l))
        as [[r2|msg] b2]; [done|].
      destruct (str_contains too_small msg); cbn [buf_size r buf];
        [apply Hmore|done].
    + destruct (str_contains too_small msg); cbn [buf_size r buf];
        [apply Hmore|done].
Qed.

(** A run of doublings of [3000] below [1000000] has at most 9 terms. *)
Lemma doubled_default_bound n :
  Forall (fun s => s < 1000000) (doubled default_buf_size n) ->
  (n <= 9)%nat.
Proof.
  intros Hall. destruct (decide (n <= 9)%nat) as [|Hn]; [done|].
  exfalso. rewrite Forall_forall in Hall.
  assert (Hin : default_buf_size * 2 ^ Z.of_nat 9
                ∈ doubled default_buf_size n).
  { unfold doubled. apply list_elem_of_fmap. exists 9%nat. split; [done|].
    apply list_elem_of_In, in_seq. lia. }
  apply Hall in Hin. vm_compute in Hin. discriminate.
Qed.

(** [CHK] always comes to an end. *)
Lemma CHK_terminates return_code funcname args w :
  (CHK txt libnidaqmx error_map return_code funcname args w).1 <> OutOfFuel.
Proof.
  unfold CHK. destruct (return_code =? 0); [done|].
  pose proof (retry_loop_fuel retry_fuel return_code
                {| buf_size := default_buf_size; r := None; buf := None |} w)
    as Hfuel.
  destruct (retry_loop _ _ _ _ _) as [[l| |] w'] eqn:Hloop; cbn in Hfuel.
  - unfold report, read_local.
    destruct (r l) as [rv|]; [|done].
    destruct (negb (rv =? 0)).
    + destruct (return_code <? 0).
      * destruct (error_map !! return_code); [|done].
        destruct (buf l); done.
      * done.
    + destruct (buf l); [|done]. destruct (return_code <? 0); done.
  - done.
  - exfalso. apply Hfuel; [done| |done]. vm_compute. discriminate.
Qed.
(** Lines 40-56 leave the buffers alone. *)
Lemma report_buffers return_code funcname args l w :
  buffers (report txt error_map return_code funcname args l w).2
  = buffers w.
Proof.
  unfold report, read_local.
  destruct (r l) as [rv|]; [|done].
  destruct (negb (rv =? 0)).
  - destruct (return_code <? 0); [|done].
    destruct (error_map !! return_code); [|done]. destruct (buf l); done.
  - destruct (buf l); [|done]. destruct (return_code <? 0); done.
Qed.

(** The loop unfolded once, in terms of [attempt]. *)
Lemma retry_loop_attempt fuel return_code l w :
  buf_size l < 1000000 ->
  retry_loop libnidaqmx (S fuel) return_code l w =
  match attempt libnidaqmx return_code (buf_size l) with
  | (Status rv, value) =>
    (Ok {| buf_size := buf_size l; r := Some rv; buf := Some value |},
     create_string_buffer (buf_size l) w)
  | (RuntimeError msg, value) =>
    if str_contains too_small msg then
      retry_loop libnidaqmx fuel return_code
        {| buf_size := buf_size l * 2;
           r := match DAQmxGetExtendedErrorInfo libnidaqmx "" (buf_size l)
                with (Status r1, _) => Some r1 | _ => r l end;
           buf := Some value |}
        (create_string_buffer (buf_size l) w)
    else (Raise (NIDAQmxRuntimeError msg),
          create_string_buffer (buf_size l) w)
  end.
Proof.
  intros Hlt. apply Z.ltb_lt in Hlt. cbn [retry_loop]. rewrite Hlt.
  unfold attempt.
  destruct (DAQmxGetExtendedErrorInfo libnidaqmx "" (buf_size l))
    as [[r1|msg] b1]; [|done].
  destruct (negb (r1 =? 0)); [|done].
  destruct (DAQmxGetErrorString libnidaqmx return_code b1 (buf_size l))
    as [[r2|msg] b2]; done.
Qed.

(** If the attempts ask for more room [k] times and then one returns, the
    loop is left by [break] with that attempt's status and text. *)
Lemma retry_loop_fits (k : nat) : forall fuel return_code l w rv value,
  (k < fuel)%nat ->
  1 <= buf_size l ->
  buf_size l * 2 ^ Z.of_nat k < 1000000 ->
  (forall j : nat, (j < k)%nat ->
     wants_more libnidaqmx return_code (buf_size l * 2 ^ Z.of_nat j)) ->
  attempt libnidaqmx return_code (buf_size l * 2 ^ Z.of_nat k)
    = (Status rv, value) ->
  exists w',
    retry_loop libnidaqmx fuel return_code l w =
      (Ok {| buf_size := buf_size l * 2 ^ Z.of_nat k;
             r := Some rv; buf := Some value |}, w') /\
    stderr w' = stderr w.
Proof.
  induction k as [|k IH]; intros fuel return_code l w rv value
    Hfuel Hpos Hlt Hmore Hfit.
  - destruct fuel as [|fuel]; [lia|].
    change (Z.of_nat 0) with 0 in *. rewrite Z.pow_0_r, Z.mul_1_r in *.
    rewrite retry_loop_attempt, Hfit by done. eauto.
  - destruct fuel as [|fuel]; [lia|].
    rewrite Nat2Z.inj_succ, Z.pow_succ_r in Hlt, Hfit by lia.
    assert (0 < 2 ^ Z.of_nat k) by (apply Z.pow_pos_nonneg; lia).
    assert (buf_size l * 1 <= buf_size l * (2 * 2 ^ Z.of_nat k))
      by (apply Z.mul_le_mono_nonneg_l; lia).
    rewrite retry_loop_attempt by lia.
    destruct (Hmore 0%nat) as (msg & b & Hatt & Hsmall); [lia|].
    change (Z.of_nat 0) with 0 in Hatt.
    rewrite Z.pow_0_r, Z.mul_1_r in Hatt. rewrite Hatt, Hsmall.
    edestruct (IH fuel return_code
                 {| buf_size := buf_size l * 2;
                    r := match DAQmxGetExtendedErrorInfo libnidaqmx ""
                                 (buf_size l)
                         with (Status r1, _) => Some r1 | _ => r l end;
                    buf := Some b |}
                 (create_string_buffer (buf_size l) w) rv value)
      as (w' & Hrun & Herr); cbn [buf_size].
    + lia.
    + lia.
    + replace (buf_size l * 2 * 2 ^ Z.of_nat k)
        with (buf_size l * (2 * 2 ^ Z.of_nat k)) by lia. done.
    + intros j Hj. specialize (Hmore (S j) ltac:(lia)).
      rewrite Nat2Z.inj_succ, Z.pow_succ_r in Hmore by lia.
      replace (buf_size l * 2 * 2 ^ Z.of_nat j)
        with (buf_size l * (2 * 2 ^ Z.of_nat j)) by lia. done.
    + rewrite <- Hfit. f_equal. lia.
    + exists w'. cbn [buf_size] in Hrun. rewrite Hrun. split; [|done].
      rewrite Nat2Z.inj_succ, Z.pow_succ_r by lia. do 3 f_equal. lia.
Qed.
End CHK_facts.

(** ** The claims about [CHK] *)

(** C1, counterexample: with the positive code 1 and a driver whose
    error-text lookup raises a [RuntimeError] that is not about the size
    of the buffer, [CHK] raises [NIDAQmxRuntimeError]. *)
Lemma CHK_positive_code_raises :
  CHK plain_text lib_unavailable error_map_example 1 "DAQmxStartTask" [] world0
  = (Raise (NIDAQmxRuntimeError "NI-DAQmx is not running"),
     {| stderr := []; buffers := [3000] |}).
Proof. vm_compute. reflexivity. Qed.

(** C1, as amended: [CHK] returns the code 0 unchanged without any effect;
    it raises for every negative code; and for a positive code, if the
    error-text lookup asks for a larger buffer some [k <= 8] times and then
    returns, it does not raise, appends one line to [stderr] and returns the
    code unchanged. *)
Theorem CHK_dispatch {arg : Type} (txt : pytext arg) (lib : libnidaqmx_t)
    (error_map : gmap Z string) (funcname : string) (args : list arg)
    (w : world) :
  CHK txt lib error_map 0 funcname args w = (Ok 0, w) /\
  (forall return_code, return_code < 0 ->
     exists e w',
       CHK txt lib error_map return_code funcname args w = (Raise e, w')) /\
  (forall return_code (k : nat), 0 < return_code -> (k <= 8)%nat ->
     (forall j : nat, (j < k)%nat ->
        wants_more lib return_code (default_buf_size * 2 ^ Z.of_nat j)) ->
     fits lib return_code (default_buf_size * 2 ^ Z.of_nat k) ->
     exists line w',
       CHK txt lib error_map return_code funcname args w
         = (Ok return_code, w') /\
       stderr w' = stderr w ++ [line]).
Proof.
  split; [done|]. split.
  - intros return_code Hneg.
    pose proof (CHK_terminates txt lib error_map return_code funcname args w)
      as Hterm.
    unfold CHK in *. destruct (return_code =? 0) eqn:Hz; [lia|].
    destruct (retry_loop _ _ _ _ _) as [[l| |] w'].
    + unfold report, read_local in *.
      assert ((return_code <? 0) = true) as -> by lia.
      destruct (r l) as [rv|]; [|eauto].
      destruct (negb (rv =? 0)).
      * destruct (error_map !! return_code); [|eauto].
        destruct (buf l); eauto.
      * destruct (buf l); eauto.
    + eauto.
    + done.
  - intros return_code k Hpos Hk Hmore [rv [value Hfit]].
    assert (2 ^ Z.of_nat k <= 2 ^ 8) by (apply Z.pow_le_mono_r; lia).
    destruct (retry_loop_fits lib k retry_fuel return_code
                {| buf_size := default_buf_size; r := None; buf := None |}
                w rv value) as (w' & Hrun & Herr); cbn [buf_size]; try done.
    + vm_compute. lia.
    + unfold default_buf_size. lia.
    + unfold CHK. assert ((return_code =? 0) = false) as -> by lia.
      rewrite Hrun. unfold report, read_local. cbn [r buf].
      assert ((return_code <? 0) = false) as -> by lia.
      destruct (negb (rv =? 0)); eexists _, _;
        (split; [reflexivity|]); cbn; by rewrite Herr.
Qed.

(** The amended C1 at work: the driver [lib_generic] wants more room at
    3000 and 6000 bytes and returns at 12000. *)
Lemma CHK_dispatch_witness :
  exists line w',
    CHK plain_text lib_generic error_map_example 7 "DAQmxStartTask" [] world0
      = (Ok 7, w') /\
    stderr w' = stderr world0 ++ [line].
Proof.
  apply (proj2 (proj2 (CHK_dispatch plain_text lib_generic error_map_example
                         "DAQmxStartTask" [] world0)) 7 2%nat).
  - lia.
  - lia.
  - intros j Hj. exists too_small, "".
    destruct j as [|[|j]]; [split; reflexivity ..|lia].
  - exists 0, "Invalid task". reflexivity.
Defined.

(** C9: the buffers that [CHK] creates are 3000, 6000, ... in this order,
    each 3000 times a power of two, below 1,000,000 and at most 768,000
    bytes, and there are at most 9 of them; the loop runs once per buffer
    and is always left. *)
Theorem CHK_buffer_growth {arg : Type} (txt : pytext arg)
    (lib : libnidaqmx_t) (error_map : gmap Z string) (return_code : Z)
    (funcname : string) (args : list arg) (w : world) :
  (CHK txt lib error_map return_code funcname args w).1 <> OutOfFuel /\
  exists n : nat,
    (n <= 9)%nat /\
    buffers (CHK txt lib error_map return_code funcname args w).2
      = buffers w ++ doubled default_buf_size n /\
    Forall (fun size => size < 1000000 /\ size <= 768000)
           (doubled default_buf_size n).
Proof.
  split; [apply CHK_terminates|].
  unfold CHK. destruct (return_code =? 0).
  { exists 0%nat. cbn. rewrite app_nil_r. auto with lia. }
  destruct (retry_loop lib retry_fuel return_code
              {| buf_size := default_buf_size; r := None; buf := None |} w)
    as [res w'] eqn:Hloop.
  apply retry_loop_buffers in Hloop as [_ (n & Hbuf & Hall)].
  cbn [buf_size] in Hbuf, Hall.
  pose proof (doubled_default_bound n Hall) as Hn.
  exists n. split; [done|]. split.
  - destruct res; cbn [snd]; [rewrite report_buffers|..]; done.
  - unfold doubled in *. apply Forall_fmap, Forall_forall.
    intros j Hj%list_elem_of_In%in_seq. cbn.
    assert (2 ^ Z.of_nat j <= 2 ^ 8) by (apply Z.pow_le_mono_r; lia).
    unfold default_buf_size. lia.
Qed.

(** C3, the code at the failing input: when the error-string lookup finds
    the buffer too small at every size, [CHK] leaves the loop after the
    buffer of 768,000 bytes and goes on as if the lookup had returned: with
    the positive code 1 it raises nothing, warns and returns 1; with a
    negative code it raises the same [NIDAQmxRuntimeError] as for an error
    that the driver reports; and when it is the extended lookup that never
    fits, the unbound local [r] is read. *)
Theorem CHK_buffer_bound_exceeded :
  CHK plain_text lib_never_fits error_map_example 1 "DAQmxStartTask" [] world0
  = (Ok 1,
     {| stderr := ["DAQmxStartTask() warning: 1" +:+ newline];
        buffers := doubled 3000 9 |}) /\
  CHK plain_text lib_never_fits error_map_example (-200088)
      "DAQmxStartTask" [] world0
  = (Raise (NIDAQmxRuntimeError
              "DAQmxStartTask() failed with error InvalidTask=-200088: ''"),
     {| stderr := []; buffers := doubled 3000 9 |}) /\
  CHK plain_text lib_never_fits_ext error_map_example 1
      "DAQmxStartTask" [] world0
  = (Raise (UnboundLocalError "r"),
     {| stderr := []; buffers := doubled 3000 9 |}).
Proof. vm_compute. auto. Qed.

(** C5, counterexample: the code -200088 is [InvalidTask] in the table, the
    extended lookup returns its text with status 0, and the error raised
    carries the operation, the arguments and the text but not the symbolic
    name. *)
Lemma CHK_error_without_name :
  error_map_example !! (-200088) = Some "InvalidTask" /\
  CHK plain_text lib_extended error_map_example (-200088)
      "DAQmxStartTask" [] world0
  = (Raise (NIDAQmxRuntimeError
              ("DAQmxStartTask():" +:+ newline +:+ "  Task specified is invalid"
               +:+ newline +:+ "  ----------")),
     {| stderr := []; buffers := [3000] |}) /\
  str_contains "InvalidTask"
    ("DAQmxStartTask():" +:+ newline +:+ "  Task specified is invalid"
     +:+ newline +:+ "  ----------") = false.
Proof. vm_compute. auto. Qed.

(** C5, as amended: when [CHK] raises for a negative code after the lookup
    loop was left with the status [rv] and the text [value], then, if [rv]
    is not zero and the code is in the table, the error carries the
    operation name, the arguments, the symbolic name, the code and the
    [repr] of the text; if [rv] is zero, it carries the operation name, the
    arguments and the text wrapped at 80 columns, and no symbolic name. *)
Theorem CHK_error_contents {arg : Type} (txt : pytext arg)
    (lib : libnidaqmx_t) (error_map : gmap Z string) (return_code : Z)
    (funcname : string) (args : list arg) (w w' : world) (l : locals)
    (rv : Z) (value : string) :
  return_code < 0 ->
  retry_loop lib retry_fuel return_code
    {| buf_size := default_buf_size; r := None; buf := None |} w
    = (Ok l, w') ->
  r l = Some rv ->
  buf l = Some value ->
  (rv <> 0 -> forall name, error_map !! return_code = Some name ->
     CHK txt lib error_map return_code funcname args w
     = (Raise (NIDAQmxRuntimeError
                 (funcname +:+ str_tuple txt args +:+ " failed with error "
                  +:+ name +:+ "=" +:+ str_of_Z return_code +:+ ": "
                  +:+ repr_str txt value)), w')) /\
  (rv = 0 ->
     CHK txt lib error_map return_code funcname args w
     = (Raise (NIDAQmxRuntimeError
                 (funcname +:+ str_tuple txt args +:+ ":"
                  +:+ String.concat (newline +:+ "  ")
                        ([""] ++ textwrap_wrap txt value 80
                              ++ ["----------"]))), w')).
Proof.
  intros Hneg Hloop Hr Hbuf. unfold CHK.
  assert ((return_code =? 0) = false) as -> by lia.
  rewrite Hloop. unfold report, read_local. rewrite Hr, Hbuf.
  assert ((return_code <? 0) = true) as -> by lia.
  split.
  - intros Hrv name Hname.
    assert (negb (rv =? 0) = true) as -> by (apply negb_true_iff; lia).
    by rewrite Hname.
  - intros ->. done.
Qed.

(** The amended C5 at work on both kinds of error: with [lib_no_text] both
    lookups return the status -1, with [lib_generic] the error string fits
    in the third buffer. *)
Lemma CHK_error_contents_witness :
  CHK plain_text lib_no_text error_map_example (-200088)
      "DAQmxStartTask" ["Dev1"] world0
  = (Raise (NIDAQmxRuntimeError
      "DAQmxStartTask('Dev1',) failed with error InvalidTask=-200088: 'unknown'"),
     {| stderr := []; buffers := [3000] |}) /\
  CHK plain_text lib_generic error_map_example (-200088)
      "DAQmxStartTask" ["Dev1"] world0
  = (Raise (NIDAQmxRuntimeError
      ("DAQmxStartTask('Dev1',):" +:+ newline +:+ "  Invalid task"
       +:+ newline +:+ "  ----------")),
     {| stderr := []; buffers := [3000; 6000; 12000] |}).
Proof.
  split.
  - refine (proj1 (CHK_error_contents plain_text lib_no_text
                     error_map_example (-200088) "DAQmxStartTask" ["Dev1"]
                     world0 _ _ (-1) "unknown" _ _ _ _) _ "InvalidTask" _);
      [lia|vm_compute; reflexivity|reflexivity|reflexivity|lia|reflexivity].
  - refine (proj2 (CHK_error_contents plain_text lib_generic
                     error_map_example (-200088) "DAQmxStartTask" ["Dev1"]
                     world0 _ _ 0 "Invalid task" _ _ _ _) _);
      [lia|vm_compute; reflexivity|reflexivity|reflexivity|reflexivity].
Defined.

(** * Properties of [make_pattern] *)

(** ** Strings *)

Lemma append_cons c s1 s2 : String c s1 +:+ s2 = String c (s1 +:+ s2).
Proof. reflexivity. Qed.

Lemma append_nil s : "" +:+ s = s.
Proof. reflexivity. Qed.

Lemma substring_all s : String.substring 0 (String.length s) s = s.
Proof. induction s as [|c s IH]; cbn; [done|by rewrite IH]. Qed.

Lemma length_append s1 s2 :
  String.length (s1 +:+ s2) = (String.length s1 + String.length s2)%nat.
Proof.
  induction s1 as [|c s1 IH]; [done|].
  rewrite append_cons. cbn. by rewrite IH.
Qed.

(** Slicing a word at its first digit. *)
Lemma slice_first_digit word :
  let i := first_digit word in
  str_take i word +:+ str_drop i word = word /\
  String.length (str_take i word) = i /\
  (i <= String.length word)%nat.
Proof.
  unfold str_take, str_drop.
  induction word as [|c word (IH1 & IH2 & IH3)]; cbn [first_digit].
  - done.
  - destruct (isdigit c); cbn.
    + rewrite substring_all. auto with lia.
    + rewrite IH2. split; [|auto with lia].
      by rewrite append_cons, IH1.
Qed.

Lemma str_drop_first_digit word :
  (String.length (str_drop (first_digit word) word) + first_digit word
   = String.length word)%nat.
Proof.
  pose proof (slice_first_digit word) as (H1 & H2 & H3). cbn in *.
  apply (f_equal String.length) in H1. rewrite length_append in H1. lia.
Qed.

Lemma split_slash_shape path :
  (exists a, split_slash path = (a, []) /\ a = path
             /\ has_char "/" path = false) \/
  (exists a b, split_slash path = (a, [b]) /\ path = a +:+ String "/" b
               /\ has_char "/" a = false).
Proof.
  induction path as [|c path IH]; cbn; [left; eauto|].
  destruct (Ascii.eqb_spec c "/") as [->|Hc].
  - right. exists "", path. done.
  - destruct IH as [(a & -> & -> & Hno)|(a & b & -> & -> & Hno)].
    + left. eexists. repeat split. exact Hno.
    + right. exists (String c a), b. repeat split. cbn.
      by destruct (Ascii.eqb_spec c "/").
Qed.

Lemma strip_slash_length path :
  (String.length (strip_slash path) <= String.length path)%nat.
Proof.
  destruct path as [|c path]; [done|]. unfold strip_slash.
  destruct c as [[] [] [] [] [] [] [] []]; cbn; lia.
Qed.

(** Every path reaches line 106 with a prefix and one remainder. *)
Lemma parts_shape path : parts path = (key_of path, [rem_of path]).
Proof.
  unfold key_of, rem_of, parts, is_bare.
  destruct (split_slash_shape (strip_slash path))
    as [(a & -> & _)|(a & b & -> & _)]; done.
Qed.

(** Under a prefix that is not empty the remainder is shorter than the
    path: the recursion of [make_pattern] is on shorter strings. *)
Lemma rem_of_shorter path :
  key_of path <> "" ->
  (String.length (rem_of path) < String.length path)%nat.
Proof.
  pose proof (strip_slash_length path) as Hstrip.
  unfold key_of, rem_of, parts, is_bare.
  destruct (split_slash_shape (strip_slash path))
    as [(a & -> & -> & _)|(a & b & -> & Heq & _)]; cbn.
  - pose proof (slice_first_digit (strip_slash path)) as (H1 & H2 & H3).
    pose proof (str_drop_first_digit (strip_slash path)) as H4.
    cbn in *. intros Hkey.
    destruct (first_digit (strip_slash path)) eqn:Hi;
      [|unfold str_drop in H4; lia].
    exfalso. apply Hkey. by destruct (strip_slash path).
  - intros _. rewrite Heq, length_append in Hstrip. cbn in Hstrip. lia.
Qed.

(** ** The grouping loop *)

Lemma elem_of_set_add x y s : x ∈ set_add y s <-> x = y \/ x ∈ s.
Proof.
  unfold set_add. case_decide.
  - split; [auto|]. intros [Heq|]; [by subst|done].
  - rewrite elem_of_app, list_elem_of_singleton. tauto.
Qed.

Lemma NoDup_set_add y s : NoDup s -> NoDup (set_add y s).
Proof.
  intros Hs. unfold set_add. case_decide; [done|].
  apply NoDup_app. split; [done|]. split; [|apply NoDup_singleton].
  intros x Hx ->%list_elem_of_singleton. done.
Qed.

Lemma members_insert m k v k' :
  members (<[k := v]> m) k' = if decide (k = k') then v else members m k'.
Proof.
  unfold members. destruct (decide (k = k')) as [->|].
  - by rewrite lookup_insert_eq.
  - by rewrite lookup_insert_ne.
Qed.

(** One turn of the loop, in terms of the prefix and the remainder of the
    path. *)
Lemma group_path_unfold m flag path :
  group_path (m, flag) path =
  if is_bare path && bool_decide (m ≠ ∅) && negb flag
  then Raise AssertionError
  else Ok (<[key_of path := set_add (rem_of path) (members m (key_of path))]> m,
           flag || is_bare path).
Proof.
  unfold group_path, key_of, rem_of, parts, is_bare, members, add_group.
  destruct (split_slash_shape (strip_slash path))
    as [(a & -> & _)|(a & b & -> & _)]; cbn.
  - destruct (bool_decide (m ≠ ∅)), flag; done.
  - by rewrite orb_false_r.
Qed.

Lemma group_paths_cons st path paths :
  group_paths st (path :: paths)
  = st' ← group_path st path; group_paths st' paths.
Proof. reflexivity. Qed.

(** What the loop leaves in [patterns] and [flag]. *)
Lemma group_paths_inv paths : forall m0 f0 m f,
  group_paths (m0, f0) paths = Ok (m, f) ->
  f = f0 || existsb is_bare paths /\
  (forall k x, x ∈ members m k <->
     x ∈ members m0 k \/ exists p, p ∈ paths /\ key_of p = k /\ rem_of p = x) /\
  ((forall k, NoDup (members m0 k)) -> forall k, NoDup (members m k)) /\
  (forall k, k ∈ dom m <->
     k ∈ dom m0 \/ exists p, p ∈ paths /\ key_of p = k).
Proof.
  induction paths as [|path paths IH]; intros m0 f0 m f.
  - intros [= <- <-]. rewrite orb_false_r. repeat split; auto.
    + intros [|(p & Hp & _)]; [done|]. by apply elem_of_nil in Hp.
    + intros [|(p & Hp & _)]; [done|]. by apply elem_of_nil in Hp.
  - rewrite group_paths_cons, group_path_unfold.
    destruct (is_bare path && bool_decide (m0 ≠ ∅) && negb f0); [done|].
    cbn [mbind result_bind]. intros (-> & Hmem & Hnd & Hdom)%IH.
    split; [cbn; by rewrite orb_assoc|]. split; [|split].
    + intros k x. rewrite Hmem, members_insert.
      destruct (decide (key_of path = k)) as [<-|Hk].
      * rewrite elem_of_set_add. split.
        -- intros [[->|]|(p & Hp & ?)]; [right|by left|right].
           ++ exists path. split; [left|done].
           ++ exists p. split; [by right|done].
        -- intros [|(p & [->|Hp]%elem_of_cons & Hk & Hx)]; eauto.
      * split.
        -- intros [|(p & Hp & ?)]; [by left|right].
           exists p. split; [by right|done].
        -- intros [|(p & [->|Hp]%elem_of_cons & Hk' & Hx)]; eauto.
           done.
    + intros Hnd0 k. apply Hnd. intros k'. rewrite members_insert.
      destruct (decide (key_of path = k')); [|done].
      by apply NoDup_set_add.
    + intros k. rewrite Hdom, dom_insert_L, elem_of_union, elem_of_singleton.
      split.
      * intros [[->|]|(p & Hp & ?)]; [right|by left|right].
        -- exists path. split; [left|done].
        -- exists p. split; [by right|done].
      * intros [|(p & [->|Hp]%elem_of_cons & Hk)]; eauto.
Qed.

(** The loop raises nothing but [AssertionError]. *)
Lemma group_paths_result paths : forall st,
  (exists st', group_paths st paths = Ok st') \/
  group_paths st paths = Raise AssertionError.
Proof.
  induction paths as [|path paths IH]; intros [m0 f0]; [left; eauto|].
  rewrite group_paths_cons, group_path_unfold.
  destruct (is_bare path && bool_decide (m0 ≠ ∅) && negb f0); [by right|].
  apply IH.
Qed.

(** Once [flag] is set the assertion cannot fail any more. *)
Lemma group_paths_flag paths : forall m0,
  exists st', group_paths (m0, true) paths = Ok st'.
Proof.
  induction paths as [|path paths IH]; intros m0; [eauto|].
  rewrite group_paths_cons, group_path_unfold. cbn [negb].
  rewrite andb_false_r. apply IH.
Qed.

(** With a group in [patterns] and [flag] not set, the first bare path
    fails the assertion. *)
Lemma group_paths_asserts paths : forall m0,
  m0 ≠ ∅ ->
  group_paths (m0, false) paths = Raise AssertionError <->
  exists q, q ∈ paths /\ is_bare q = true.
Proof.
  induction paths as [|path paths IH]; intros m0 Hm0.
  - split; [done|]. intros (q & Hq & _). by apply elem_of_nil in Hq.
  - rewrite group_paths_cons, group_path_unfold.
    rewrite (bool_decide_eq_true_2 _ Hm0). cbn [negb].
    rewrite !andb_true_r. destruct (is_bare path) eqn:Hbare.
    + split; [|done]. intros _. exists path. split; [left|done].
    + cbn [mbind result_bind orb]. rewrite IH.
      * split.
        -- intros (q & Hq & ?). exists q. split; [by right|done].
        -- intros (q & [->|Hq]%elem_of_cons & Hb); [congruence|eauto].
      * apply insert_non_empty.
Qed.

(** C8 for the loop of one call, from the empty dictionary. *)
Lemma group_paths_assertion paths :
  group_paths (∅, false) paths = Raise AssertionError <->
  exists p rest, paths = p :: rest /\ is_bare p = false /\
                 exists q, q ∈ rest /\ is_bare q = true.
Proof.
  destruct paths as [|path paths].
  - split; [done|]. intros (p & rest & ? & _). done.
  - rewrite group_paths_cons, group_path_unfold.
    rewrite bool_decide_eq_false_2 by (intros H; by apply H).
    rewrite andb_false_r. cbn [andb mbind result_bind orb].
    destruct (is_bare path) eqn:Hbare.
    + split.
      * destruct (group_paths_flag paths
                    (<[key_of path:=set_add (rem_of path)
                                      (members ∅ (key_of path))]> ∅))
          as [st' ->]. done.
      * intros (p & rest & [= <- <-] & ? & _). congruence.
    + rewrite group_paths_asserts by apply insert_non_empty. split.
      * intros Hq. by exists path, paths.
      * by intros (p & rest & [= <- <-] & _ & Hq).
Qed.

(** ** Order and repetitions of the paths *)

Lemma same_paths_perm l1 l2 : l1 ≡ₚ l2 -> same_paths l1 l2.
Proof. intros Hp p. by rewrite Hp. Qed.

Lemma forallb_same_paths (f : string -> bool) l1 l2 :
  same_paths l1 l2 -> forallb f l1 = forallb f l2.
Proof.
  intros Hsame. apply eq_true_iff_eq. rewrite !forallb_forall.
  split; intros H p Hp%list_elem_of_In; apply H, list_elem_of_In, Hsame, Hp.
Qed.

Lemma existsb_same_paths (f : string -> bool) l1 l2 :
  same_paths l1 l2 -> existsb f l1 = existsb f l2.
Proof.
  intros Hsame. apply eq_true_iff_eq. rewrite !existsb_exists.
  split; intros (p & Hp%list_elem_of_In & ?); exists p;
    (split; [apply list_elem_of_In, Hsame, Hp|done]).
Qed.

Lemma max_len_le l n :
  (max_len l <= n)%nat <-> forall p, p ∈ l -> (String.length p <= n)%nat.
Proof.
  unfold max_len. induction l as [|q l IH]; cbn.
  - split; [|lia]. intros _ p Hp. by apply elem_of_nil in Hp.
  - rewrite Nat.max_lub_iff, IH. split.
    + intros [Hq Hl] p [->|Hp]%elem_of_cons; auto.
    + intros H. split; [apply H; left|]. intros p Hp. apply H. by right.
Qed.

Lemma max_len_same_paths l1 l2 :
  same_paths l1 l2 -> max_len l1 = max_len l2.
Proof.
  intros Hsame. apply Nat.le_antisymm; apply max_len_le; intros p Hp;
    apply Hsame in Hp; revert p Hp; by apply max_len_le.
Qed.

Lemma sorted_int_perm l1 l2 : l1 ≡ₚ l2 -> sorted_int l1 = sorted_int l2.
Proof.
  intros Hp. unfold sorted_int. apply (Sorted_unique Z.le).
  - apply (Sorted_merge_sort Z.le).
  - apply (Sorted_merge_sort Z.le).
  - by rewrite !merge_sort_Permutation.
Qed.

(** [ints] without the monad. *)
Lemma ints_alt lst :
  ints lst =
  if forallb (fun s => bool_decide (is_Some (int_of_str s))) lst
  then Ok ((fun s => default 0 (int_of_str s)) <$> lst)
  else Raise ValueError.
Proof.
  unfold ints. induction lst as [|s lst IH]; [done|]. cbn.
  destruct (int_of_str s) as [v|] eqn:Hs; cbn; [|done].
  destruct (mapM int_of_str lst), (forallb _ lst); cbn in *; congruence.
Qed.

Lemma emit_ints_perm lst1 lst2 :
  lst1 ≡ₚ lst2 -> emit_ints lst1 = emit_ints lst2.
Proof.
  intros Hp. unfold emit_ints. rewrite !ints_alt.
  rewrite (forallb_same_paths _ lst1 lst2) by by apply same_paths_perm.
  destruct (forallb _ lst2); [|done]. cbn [mbind result_bind].
  by rewrite (sorted_int_perm _ ((fun s => default 0 (int_of_str s)) <$> lst2))
    by by rewrite Hp.
Qed.

(** [rel_result] goes through sequencing and is monotone. *)
Lemma rel_result_bind {A B : Type} (P : A -> A -> Prop) (Q : B -> B -> Prop)
    (m1 m2 : result A) (k1 k2 : A -> result B) :
  rel_result P m1 m2 ->
  (forall a1 a2, P a1 a2 -> rel_result Q (k1 a1) (k2 a2)) ->
  rel_result Q (m1 ≫= k1) (m2 ≫= k2).
Proof.
  intros [->|[->|Hm]] Hk; [by left|by right; left|].
  destruct m1 as [a1| |], m2 as [a2| |]; try done.
  - by apply Hk.
  - subst. destruct e0; [right; right; done ..|by left|right; right; done].
  - by right; right.
Qed.

Lemma rel_result_mono {A : Type} (P Q : A -> A -> Prop) (r1 r2 : result A) :
  (forall a1 a2, P a1 a2 -> Q a1 a2) ->
  rel_result P r1 r2 -> rel_result Q r1 r2.
Proof.
  intros HPQ [->|[->|Hm]]; [by left|by right; left|right; right].
  destruct r1, r2; auto.
Qed.

Lemma rel_result_ok {A : Type} (P : A -> A -> Prop) (a1 a2 : A) :
  P a1 a2 -> rel_result P (Ok a1) (Ok a2).
Proof. intros. by right; right. Qed.

Lemma rel_result_refl {A : Type} (P : A -> A -> Prop) (r : result A) :
  (forall a, P a a) -> rel_result P r r.
Proof. intros HP. right; right. destruct r; auto. Qed.

Section order.
Variables set_iter1 set_iter2 : pyset -> list string.
Variables recurse1 recurse2 : list string -> result (option string).
Variables paths1 paths2 : list string.
Variable _main : bool.
Hypothesis recurse_rel : forall la lb,
  la ≡ₚ lb -> rel_result eq (recurse1 la) (recurse2 lb).

Lemma emit_prefix_rel flag prefix lst1 lst2 :
  lst1 ≡ₚ lst2 ->
  rel_result (agree_turn _main paths1 paths2)
    (emit_prefix recurse1 paths1 _main flag prefix lst1)
    (emit_prefix recurse2 paths2 _main flag prefix lst2).
Proof.
  intros Hp. pose proof (Permutation_length Hp) as Hlen.
  destruct lst1 as [|x1 [|y1 t1]], lst2 as [|x2 [|y2 t2]]; try done.
  - apply rel_result_refl. by left.
  - apply Permutation_singleton_l in Hp as [= ->].
    apply rel_result_refl. by left.
  - unfold emit_prefix. destruct (negb (prefix =? "")%string).
    + eapply rel_result_bind; [by apply recurse_rel|].
      intros sub ? <-. destruct sub as [sub|].
      * apply rel_result_refl. by left.
      * destruct _main.
        -- apply rel_result_ok. by right.
        -- apply rel_result_refl. by left.
    + rewrite (emit_ints_perm _ _ Hp). apply rel_result_refl. by left.
Qed.

Lemma emit_all_rel m1 m2 flag keys :
  (forall k, set_iter1 (m1 !!! k) ≡ₚ set_iter2 (m2 !!! k)) ->
  forall r,
    rel_result (agree _main paths1 paths2)
      (emit_all set_iter1 recurse1 paths1 _main m1 flag keys r)
      (emit_all set_iter2 recurse2 paths2 _main m2 flag keys r).
Proof.
  intros Hiter. induction keys as [|k keys IH]; intros r; cbn [emit_all].
  - apply rel_result_ok. by left.
  - eapply rel_result_bind; [by apply emit_prefix_rel|].
    intros t1 t2 [<-|(Hmain & -> & ->)].
    + destruct t1; [apply IH|]. apply rel_result_ok. by left.
    + apply rel_result_ok. by right.
Qed.
End order.

Lemma lookup_total_members (m : gmap string pyset) k : m !!! k = members m k.
Proof. unfold members. by rewrite lookup_total_alt. Qed.

Lemma members_empty k : members ∅ k = [].
Proof. unfold members. by rewrite lookup_empty. Qed.

(** What the loop leaves when it starts from the empty dictionary. *)
Lemma group_paths_spec paths m f :
  group_paths (∅, false) paths = Ok (m, f) ->
  f = existsb is_bare paths /\
  (forall k x, x ∈ members m k <->
     exists p, p ∈ paths /\ key_of p = k /\ rem_of p = x) /\
  (forall k, NoDup (members m k)) /\
  (forall k, k ∈ dom m <-> exists p, p ∈ paths /\ key_of p = k).
Proof.
  intros (-> & Hmem & Hnd & Hdom)%group_paths_inv.
  split; [done|]. split; [|split].
  - intros k x. rewrite Hmem, members_empty. split; [|auto].
    intros [Hx|]; [|done]. by apply elem_of_nil in Hx.
  - apply Hnd. intros k. rewrite members_empty. apply NoDup_nil_2.
  - intros k. rewrite Hdom, dom_empty_L. split; [|auto].
    intros [Hk|]; [|done]. by apply not_elem_of_empty in Hk.
Qed.

(** The loops over two lists with the same paths leave the same keys, the
    same flag and, under each key, the same remainders. *)
Lemma group_paths_same paths1 paths2 m1 f1 m2 f2 :
  same_paths paths1 paths2 ->
  group_paths (∅, false) paths1 = Ok (m1, f1) ->
  group_paths (∅, false) paths2 = Ok (m2, f2) ->
  f1 = f2 /\ dom m1 = dom m2 /\
  forall k, members m1 k ≡ₚ members m2 k.
Proof.
  intros Hsame (-> & Hmem1 & Hnd1 & Hdom1)%group_paths_spec
               (-> & Hmem2 & Hnd2 & Hdom2)%group_paths_spec.
  split; [by apply existsb_same_paths|]. split.
  - apply set_eq. intros k. rewrite Hdom1, Hdom2.
    split; intros (p & Hp & ?); exists p; (split; [by apply Hsame|done]).
  - intros k. apply NoDup_Permutation; [done..|].
    intros x. rewrite Hmem1, Hmem2.
    split; intros (p & Hp & ?); exists p; (split; [by apply Hsame|done]).
Qed.

(** The central lemma on the order of the input: two calls on lists with
    the same paths, under any two admissible iteration orders of sets,
    agree unless an assertion fails. *)
Lemma make_pattern_fuel_rel set_iter1 set_iter2 :
  iter_ok set_iter1 -> iter_ok set_iter2 ->
  forall fuel paths1 paths2 _main,
    same_paths paths1 paths2 ->
    rel_result (agree _main paths1 paths2)
      (make_pattern_fuel set_iter1 fuel paths1 _main)
      (make_pattern_fuel set_iter2 fuel paths2 _main).
Proof.
  intros Hit1 Hit2.
  induction fuel as [|fuel IH]; intros paths1 paths2 _main Hsame.
  { by right; right. }
  cbn [make_pattern_fuel]. unfold make_pattern_body.
  destruct (group_paths_result paths1 (∅, false)) as [[[m1 f1] H1]|H1];
    rewrite H1; [|by left].
  destruct (group_paths_result paths2 (∅, false)) as [[[m2 f2] H2]|H2];
    rewrite H2; [|by right; left].
  cbn [mbind result_bind].
  destruct (group_paths_same _ _ _ _ _ _ Hsame H1 H2) as (<- & <- & Hmem).
  apply group_paths_spec in H1 as (_ & _ & Hnd1 & _).
  apply group_paths_spec in H2 as (_ & _ & Hnd2 & _).
  apply emit_all_rel.
  - intros la lb Hp. eapply rel_result_mono;
      [|apply IH, same_paths_perm, Hp].
    intros v1 v2 [?|(? & _)]; done.
  - intros k. rewrite !lookup_total_members.
    by rewrite (Hit1 _ (Hnd1 k)), (Hit2 _ (Hnd2 k)).
Qed.

(** ** Termination *)

Lemma max_len_lt l n :
  l <> [] -> (forall p, p ∈ l -> (String.length p < n)%nat) ->
  (max_len l < n)%nat.
Proof.
  intros Hl H. destruct n as [|n].
  - destruct l as [|p l]; [done|]. specialize (H p ltac:(left)). lia.
  - apply Nat.lt_succ_r, max_len_le. intros p Hp%H. lia.
Qed.

Lemma emit_ints_fuel lst : emit_ints lst <> OutOfFuel.
Proof.
  unfold emit_ints, ints. destruct (mapM int_of_str lst); [|done]. cbn.
  repeat case_match; done.
Qed.

(** With fuel above the length of the longest path the model of
    [make_pattern] does not run out of fuel: the function terminates. *)
Lemma make_pattern_fuel_enough set_iter :
  iter_ok set_iter ->
  forall fuel paths _main,
    (max_len paths < fuel)%nat ->
    make_pattern_fuel set_iter fuel paths _main <> OutOfFuel.
Proof.
  intros Hit. induction fuel as [|fuel IH]; intros paths _main Hfuel; [lia|].
  cbn [make_pattern_fuel]. unfold make_pattern_body.
  destruct (group_paths_result paths (∅, false)) as [[[m f] Hg]|Hg];
    rewrite Hg; [|done].
  cbn [mbind result_bind].
  apply group_paths_spec in Hg as (_ & Hmem & Hnd & _).
  generalize (sorted_str (elements (dom m))) as keys.
  generalize (@nil string) as r.
  intros r keys. revert r.
  induction keys as [|k keys IHkeys]; intros r; cbn [emit_all]; [done|].
  rewrite lookup_total_members.
  assert (emit_prefix (fun lst => make_pattern_fuel set_iter fuel lst false)
            paths _main f k (set_iter (members m k)) <> OutOfFuel) as Hk.
  { pose proof (Hit _ (Hnd k)) as Hperm.
    destruct (set_iter (members m k)) as [|x [|y t]] eqn:Hlst;
      cbn [emit_prefix]; [done|by destruct f|].
    destruct (String.eqb_spec k "") as [->|Hk]; cbn [negb];
      [apply emit_ints_fuel|].
    assert (make_pattern_fuel set_iter fuel (x :: y :: t) false <> OutOfFuel)
      as Hrec.
    { apply IH, max_len_lt; [done|]. intros p Hp.
      rewrite Hperm in Hp. apply Hmem in Hp as (q & Hq & Hkq & <-).
      pose proof (rem_of_shorter q ltac:(congruence)).
      assert (String.length q <= max_len paths)%nat
        by by apply (max_len_le paths (max_len paths)).
      lia. }
    destruct (make_pattern_fuel set_iter fuel (x :: y :: t) false)
      as [[sub|]| |]; cbn [mbind result_bind]; [| |done..].
    - by destruct f.
    - by destruct _main. }
  destruct (emit_prefix _ _ _ _ _ _) as [[piece|v]| |];
    cbn [mbind result_bind]; [apply IHkeys|done..].
Qed.

Lemma make_pattern_terminates set_iter paths _main :
  iter_ok set_iter -> make_pattern set_iter paths _main <> OutOfFuel.
Proof. intros Hit. apply make_pattern_fuel_enough; [done|lia]. Qed.

(** More fuel does not change a result. *)
Lemma emit_all_mono set_iter recurse recurse' paths _main m flag keys :
  (forall l, recurse l <> OutOfFuel -> recurse' l = recurse l) ->
  forall r,
    emit_all set_iter recurse paths _main m flag keys r <> OutOfFuel ->
    emit_all set_iter recurse' paths _main m flag keys r
    = emit_all set_iter recurse paths _main m flag keys r.
Proof.
  intros Hrec. induction keys as [|k keys IH]; intros r; cbn [emit_all];
    [done|].
  assert (emit_prefix recurse paths _main flag k (set_iter (m !!! k))
          <> OutOfFuel ->
          emit_prefix recurse' paths _main flag k (set_iter (m !!! k))
          = emit_prefix recurse paths _main flag k (set_iter (m !!! k)))
    as Hk.
  { destruct (set_iter (m !!! k)) as [|x [|y t]]; cbn [emit_prefix];
      [done..|].
    destruct (negb (k =? "")%string); [|done].
    intros Hne. rewrite Hrec; [done|].
    intros Hout. by rewrite Hout in Hne. }
  destruct (emit_prefix recurse _ _ _ _ _) as [[piece|v]| |] eqn:Hp;
    intros Hne; rewrite Hk by done; cbn [mbind result_bind] in *;
    [by apply IH|done..].
Qed.

Lemma make_pattern_fuel_mono set_iter fuel : forall fuel' paths _main,
  (fuel <= fuel')%nat ->
  make_pattern_fuel set_iter fuel paths _main <> OutOfFuel ->
  make_pattern_fuel set_iter fuel' paths _main
  = make_pattern_fuel set_iter fuel paths _main.
Proof.
  induction fuel as [|fuel IH]; intros fuel' paths _main Hle; [done|].
  destruct fuel' as [|fuel']; [lia|].
  cbn [make_pattern_fuel]. unfold make_pattern_body.
  destruct (group_paths (∅, false) paths) as [[m f]| |]; [|done..].
  cbn [mbind result_bind]. apply emit_all_mono.
  intros l Hl. apply IH; [lia|done].
Qed.

(** Any fuel above the longest path gives the result of [make_pattern]. *)
Lemma make_pattern_fuel_stable set_iter fuel paths _main :
  iter_ok set_iter ->
  (max_len paths < fuel)%nat ->
  make_pattern_fuel set_iter fuel paths _main
  = make_pattern set_iter paths _main.
Proof.
  intros Hit Hfuel. unfold make_pattern.
  apply make_pattern_fuel_mono; [lia|].
  apply make_pattern_fuel_enough; [done|lia].
Qed.

(** ** The depth convention excludes the assertion *)

Lemma has_char_append c s1 s2 :
  has_char c (s1 +:+ s2) = has_char c s1 || has_char c s2.
Proof.
  induction s1 as [|c1 s1 IH]; [done|].
  rewrite append_cons. cbn. by rewrite IH, orb_assoc.
Qed.

Lemma strip_slash_no_slash s : has_char "/" s = false -> strip_slash s = s.
Proof.
  destruct s as [|c s]; [done|]. cbn.
  destruct (Ascii.eqb_spec c "/") as [->|Hc]; [done|]. intros _.
  unfold strip_slash.
  destruct c as [[] [] [] [] [] [] [] []]; try done.
Qed.

Lemma is_bare_has_char path :
  is_bare path = negb (has_char "/" (strip_slash path)).
Proof.
  unfold is_bare.
  destruct (split_slash_shape (strip_slash path))
    as [(a & -> & _ & ->)|(a & b & -> & -> & _)]; [done|].
  rewrite has_char_append. cbn. by rewrite orb_true_r.
Qed.

(** The remainder of a bare path has no slash and is bare again. *)
Lemma rem_of_bare path :
  is_bare path = true ->
  has_char "/" (rem_of path) = false /\ is_bare (rem_of path) = true.
Proof.
  intros Hbare. assert (has_char "/" (rem_of path) = false) as Hno.
  { pose proof Hbare as Hb. rewrite is_bare_has_char in Hb.
    apply negb_true_iff in Hb.
    unfold rem_of, parts. rewrite Hbare. cbn.
    destruct (split_slash_shape (strip_slash path))
      as [(a & -> & -> & _)|(a & b & Heq & _)].
    - pose proof (slice_first_digit (strip_slash path)) as (H1 & _).
      cbn in *. rewrite <- H1, has_char_append in Hb.
      by apply orb_false_iff in Hb as [_ ?].
    - unfold is_bare in Hbare. by rewrite Heq in Hbare. }
  split; [done|]. rewrite is_bare_has_char, strip_slash_no_slash by done.
  by rewrite Hno.
Qed.

Lemma elem_of_remainders x k l :
  x ∈ remainders k l <-> exists p, p ∈ l /\ key_of p = k /\ rem_of p = x.
Proof.
  unfold remainders. rewrite list_elem_of_fmap. split.
  - intros (p & -> & [? ?]%list_elem_of_filter). eauto.
  - intros (p & Hp & Hk & <-). exists p. split; [done|].
    by apply list_elem_of_filter.
Qed.

Lemma forallb_pointwise (f g : string -> bool) l :
  (forall p, f p = g p) -> forallb f l = forallb g l.
Proof.
  intros Hfg. induction l as [|p l IH]; [done|]. cbn. by rewrite Hfg, IH.
Qed.

Lemma uniform_S depth l :
  uniform (S depth) l
  = forallb is_bare l
    || forallb (fun p => negb (is_bare p)) l
       && forallb (fun p => uniform depth (remainders (key_of p) l)) l.
Proof.
  cbn [uniform]. by destruct (forallb is_bare l), (forallb _ l).
Qed.

Lemma uniform_bare depth l : forallb is_bare l = true -> uniform depth l = true.
Proof. intros Hl. destruct depth; [done|]. by rewrite uniform_S, Hl. Qed.

Lemma uniform_same_paths depth : forall l1 l2,
  same_paths l1 l2 -> uniform depth l1 = uniform depth l2.
Proof.
  induction depth as [|depth IH]; intros l1 l2 Hsame; [done|].
  rewrite !uniform_S.
  rewrite (forallb_same_paths is_bare l1 l2) by done.
  rewrite (forallb_same_paths (fun p => negb (is_bare p)) l1 l2) by done.
  do 2 f_equal.
  rewrite <- (forallb_same_paths _ l1 l2) by done.
  apply forallb_pointwise. intros p. apply IH.
  intros x. rewrite !elem_of_remainders.
  split; intros (q & Hq & ?); exists q; (split; [by apply Hsame|done]).
Qed.

Lemma emit_ints_no_assert lst : emit_ints lst <> Raise AssertionError.
Proof.
  unfold emit_ints, ints. destruct (mapM int_of_str lst); [|done]. cbn.
  repeat case_match; done.
Qed.

(** Paths that follow the depth convention never fail the assertion,
    whatever the order in which sets are iterated. *)
Lemma make_pattern_fuel_no_assert set_iter :
  iter_ok set_iter ->
  forall fuel paths _main,
    uniform fuel paths = true ->
    make_pattern_fuel set_iter fuel paths _main <> Raise AssertionError.
Proof.
  intros Hit. induction fuel as [|fuel IH]; intros paths _main Huni; [done|].
  cbn [make_pattern_fuel]. unfold make_pattern_body.
  destruct (group_paths_result paths (∅, false)) as [[[m f] Hg]|Hg].
  2:{ exfalso. apply group_paths_assertion in Hg
        as (p & rest & -> & Hp & q & Hq & Hbq).
      rewrite uniform_S in Huni. cbn [forallb] in Huni.
      rewrite Hp in Huni. cbn [negb andb orb] in Huni.
      apply andb_true_iff in Huni as [Hall _].
      rewrite forallb_forall in Hall.
      specialize (Hall q ltac:(by apply list_elem_of_In)).
      by rewrite Hbq in Hall. }
  rewrite Hg. cbn [mbind result_bind].
  apply group_paths_spec in Hg as (_ & Hmem & Hnd & _).
  generalize (sorted_str (elements (dom m))) as keys.
  generalize (@nil string) as r.
  intros r keys. revert r.
  induction keys as [|k keys IHkeys]; intros r; cbn [emit_all]; [done|].
  rewrite lookup_total_members.
  assert (emit_prefix (fun lst => make_pattern_fuel set_iter fuel lst false)
            paths _main f k (set_iter (members m k))
          <> Raise AssertionError) as Hk.
  { pose proof (Hit _ (Hnd k)) as Hperm.
    destruct (set_iter (members m k)) as [|x [|y t]] eqn:Hlst;
      cbn [emit_prefix]; [done|by destruct f|].
    destruct (negb (k =? "")%string); [|apply emit_ints_no_assert].
    assert (make_pattern_fuel set_iter fuel (x :: y :: t) false
            <> Raise AssertionError) as Hrec.
    { apply IH.
      assert (same_paths (x :: y :: t) (remainders k paths)) as Hsame.
      { intros z. by rewrite Hperm, Hmem, elem_of_remainders. }
      rewrite (uniform_same_paths _ _ _ Hsame).
      rewrite uniform_S in Huni.
      apply orb_true_iff in Huni as [Hbare|Hmulti].
      - apply uniform_bare, forallb_forall.
        intros z (p & Hp & _ & <-)%list_elem_of_In%elem_of_remainders.
        rewrite forallb_forall in Hbare.
        by apply rem_of_bare, Hbare, list_elem_of_In.
      - apply andb_true_iff in Hmulti as [_ Hsub].
        rewrite forallb_forall in Hsub.
        assert (x ∈ members m k) as (p & Hp & <- & _)%Hmem
          by (rewrite <- Hperm; left).
        by apply Hsub, list_elem_of_In. }
    destruct (make_pattern_fuel set_iter fuel (x :: y :: t) false)
      as [[sub|]|e|]; cbn [mbind result_bind].
    - by destruct f.
    - by destruct _main.
    - intros [= ->]. by apply Hrec.
    - done. }
  destruct (emit_prefix _ _ _ _ _ _) as [[piece|v]|e|];
    cbn [mbind result_bind]; [apply IHkeys|done| |done].
  intros [= ->]. by apply Hk.
Qed.

(** On such paths the result does not depend on the iteration order. *)
Lemma make_pattern_iter_indep set_iter1 set_iter2 paths _main :
  iter_ok set_iter1 -> iter_ok set_iter2 ->
  uniform (S (max_len paths)) paths = true ->
  make_pattern set_iter1 paths _main = make_pattern set_iter2 paths _main.
Proof.
  intros Hit1 Hit2 Huni. unfold make_pattern.
  pose proof (make_pattern_fuel_no_assert _ Hit1 _ _ _main Huni) as Hna1.
  pose proof (make_pattern_fuel_no_assert _ Hit2 _ _ _main Huni) as Hna2.
  destruct (make_pattern_fuel_rel _ _ Hit1 Hit2 (S (max_len paths))
              paths paths _main) as [?|[?|Hrel]]; [done..|].
  destruct (make_pattern_fuel set_iter1 _ _ _) as [v1|e1|],
           (make_pattern_fuel set_iter2 _ _ _) as [v2|e2|]; try done.
  - destruct Hrel as [->|(_ & -> & ->)]; done.
  - by subst.
Qed.

Lemma iter_ok_insertion_order : iter_ok insertion_order.
Proof. intros s _. done. Qed.

(** ** Calls with a single group *)

(** Prefix and remainder put together again give the stripped path. *)
Lemma parts_join path :
  (if is_bare path then key_of path +:+ rem_of path
   else key_of path +:+ "/" +:+ rem_of path) = strip_slash path.
Proof.
  unfold key_of, rem_of, parts, is_bare.
  destruct (split_slash_shape (strip_slash path))
    as [(a & -> & -> & _)|(a & b & -> & -> & _)]; cbn.
  - apply slice_first_digit.
  - done.
Qed.

Lemma NoDup_all_equal (x : string) l :
  NoDup l -> x ∈ l -> (forall y, y ∈ l -> y = x) -> l = [x].
Proof.
  intros Hnd Hx Hall. destruct l as [|y [|z l]].
  - by apply elem_of_nil in Hx.
  - f_equal. apply Hall. left.
  - exfalso. apply NoDup_cons in Hnd as [Hy _]. apply Hy.
    rewrite (Hall y), (Hall z); [left|right; left|left].
Qed.

Lemma sorted_str_singleton k : sorted_str [k] = [k].
Proof. reflexivity. Qed.

Lemma one_kind_group paths b :
  one_kind b paths ->
  exists m f, group_paths (∅, false) paths = Ok (m, f).
Proof.
  intros Hkind.
  destruct (group_paths_result paths (∅, false)) as [[[m f] Hg]|Hg];
    [eauto|].
  apply group_paths_assertion in Hg as (p & rest & -> & Hp & q & Hq & Hbq).
  rewrite (Hkind p) in Hp by left. rewrite (Hkind q) in Hbq by by right.
  congruence.
Qed.

Lemma one_kind_flag paths b :
  paths <> [] -> one_kind b paths -> existsb is_bare paths = b.
Proof.
  intros Hne Hkind. destruct b.
  - destruct paths as [|p paths]; [done|]. cbn.
    by rewrite (Hkind p) by left.
  - apply not_true_iff_false. rewrite existsb_exists.
    intros (p & Hp%list_elem_of_In%Hkind & ?). congruence.
Qed.

(** The body of [make_pattern] on paths of one kind under one prefix [k]:
    one turn of the emission loop, on an enumeration [lst] of the
    remainders. *)
Lemma make_pattern_body_single set_iter recurse paths _main k b :
  iter_ok set_iter ->
  paths <> [] ->
  (forall p, p ∈ paths -> key_of p = k) ->
  one_kind b paths ->
  exists lst,
    NoDup lst /\
    (forall x, x ∈ lst <-> exists p, p ∈ paths /\ rem_of p = x) /\
    make_pattern_body set_iter recurse paths _main =
      (t ← emit_prefix recurse paths _main b k lst;
       match t with
       | Append piece => Ok (Some piece)
       | Return v => Ok v
       end).
Proof.
  intros Hit Hne Hkey Hkind.
  destruct (one_kind_group paths b Hkind) as (m & f & Hg).
  unfold make_pattern_body. rewrite Hg. cbn [mbind result_bind].
  apply group_paths_spec in Hg as (-> & Hmem & Hnd & Hdom).
  rewrite (one_kind_flag paths b) by done.
  assert (dom m = {[k]}) as ->.
  { apply set_eq. intros k'. rewrite Hdom, elem_of_singleton. split.
    - intros (p & Hp & <-). by apply Hkey.
    - intros ->. destruct paths as [|p paths]; [done|].
      exists p. split; [left|apply Hkey; left]. }
  rewrite elements_singleton, sorted_str_singleton. cbn [emit_all].
  rewrite lookup_total_members. exists (set_iter (members m k)).
  pose proof (Hit _ (Hnd k)) as Hperm. split; [by rewrite Hperm|]. split.
  - intros x. rewrite Hperm, Hmem. split.
    + intros (p & Hp & _ & Hx). eauto.
    + intros (p & Hp & Hx). exists p. auto.
  - destruct (emit_prefix _ _ _ _ _ _) as [[piece|v]| |]; done.
Qed.

(** The same for [make_pattern] under a prefix that is not empty and with
    at least two remainders: the function recurses on the remainders. *)
Lemma make_pattern_single_group set_iter paths _main k b :
  iter_ok set_iter ->
  k <> "" ->
  (forall p, p ∈ paths -> key_of p = k) ->
  one_kind b paths ->
  (exists p q, p ∈ paths /\ q ∈ paths /\ rem_of p <> rem_of q) ->
  exists lst,
    NoDup lst /\
    (forall x, x ∈ lst <-> exists p, p ∈ paths /\ rem_of p = x) /\
    make_pattern set_iter paths _main =
      match make_pattern set_iter lst false with
      | Ok (Some sub) =>
        Ok (Some (if b then k +:+ braces sub else k +:+ "/" +:+ braces sub))
      | Ok None =>
        Ok (if _main then Some (String.concat "," paths) else None)
      | Raise e => Raise e
      | OutOfFuel => OutOfFuel
      end.
Proof.
  intros Hit Hk Hkey Hkind (p & q & Hp & Hq & Hpq).
  assert (paths <> []) as Hne by (intros ->; by apply elem_of_nil in Hp).
  destruct (make_pattern_body_single set_iter
              (fun lst => make_pattern_fuel set_iter (max_len paths) lst false)
              paths _main k b Hit Hne Hkey Hkind) as (lst & Hnd & Hlst & Hbody).
  exists lst. split; [done|]. split; [done|].
  unfold make_pattern at 1. cbn [make_pattern_fuel]. rewrite Hbody.
  assert (max_len lst < max_len paths)%nat as Hlen.
  { apply max_len_lt.
    - intros ->. apply (elem_of_nil (rem_of p)), Hlst. eauto.
    - intros z (p' & Hp' & <-)%Hlst.
      pose proof (rem_of_shorter p') as Hshort.
      rewrite (Hkey p' Hp') in Hshort. specialize (Hshort Hk).
      assert (String.length p' <= max_len paths)%nat
        by by apply (max_len_le paths (max_len paths)).
      lia. }
  pose proof (make_pattern_fuel_stable set_iter (max_len paths) lst false
                Hit Hlen) as Hstable.
  assert (rem_of p ∈ lst) as Hp' by (apply Hlst; eauto).
  assert (rem_of q ∈ lst) as Hq' by (apply Hlst; eauto).
  destruct lst as [|x [|y t]]; [by apply elem_of_nil in Hp'| |].
  { apply list_elem_of_singleton in Hp', Hq'. congruence. }
  cbn [emit_prefix].
  assert (negb (k =? "")%string = true) as ->
    by by apply negb_true_iff, String.eqb_neq.
  rewrite Hstable.
  destruct (make_pattern set_iter (x :: y :: t) false) as [[sub|]| |];
    cbn [mbind result_bind]; [|by destruct _main|done..].
  by destruct b.
Qed.

(** ** Paths built from a device, a channel name and a numeric suffix *)

Lemma split_slash_no_slash s :
  has_char "/" s = false -> split_slash s = (s, []).
Proof.
  intros Hs. destruct (split_slash_shape s)
    as [(a & -> & -> & _)|(a & b & _ & -> & _)]; [done|].
  rewrite has_char_append in Hs. cbn in Hs. by rewrite orb_true_r in Hs.
Qed.

Lemma split_slash_append a b :
  has_char "/" a = false -> split_slash (a +:+ String "/" b) = (a, [b]).
Proof.
  induction a as [|c a IH]; [done|]. rewrite append_cons. cbn.
  destruct (Ascii.eqb_spec c "/") as [->|Hc]; [done|].
  intros Ha. by rewrite IH.
Qed.

Lemma first_digit_append a b :
  first_digit a = String.length a ->
  first_digit (a +:+ b) = (String.length a + first_digit b)%nat.
Proof.
  induction a as [|c a IH]; [done|]. rewrite append_cons. cbn.
  destruct (isdigit c); [done|]. intros [= Ha]. by rewrite IH.
Qed.

Lemma str_take_append a b : str_take (String.length a) (a +:+ b) = a.
Proof.
  unfold str_take. induction a as [|c a IH].
  - by destruct b.
  - rewrite append_cons. cbn. by rewrite IH.
Qed.

Lemma str_drop_append a b : str_drop (String.length a) (a +:+ b) = b.
Proof.
  unfold str_drop. induction a as [|c a IH].
  - rewrite append_nil. cbn. rewrite Nat.sub_0_r. apply substring_all.
  - rewrite append_cons. cbn. apply IH.
Qed.

Lemma append_inj_r a s1 s2 : a +:+ s1 = a +:+ s2 -> s1 = s2.
Proof.
  induction a as [|c a IH]; [done|]. rewrite !append_cons.
  intros [= H]. by apply IH.
Qed.

(** A path [dev/r]. *)
Lemma parts_device dev r :
  dev <> "" -> has_char "/" dev = false ->
  is_bare (dev +:+ "/" +:+ r) = false /\
  key_of (dev +:+ "/" +:+ r) = dev /\
  rem_of (dev +:+ "/" +:+ r) = r.
Proof.
  intros Hne Hdev.
  assert (strip_slash (dev +:+ "/" +:+ r) = dev +:+ "/" +:+ r) as Hstrip.
  { destruct dev as [|c dev]; [done|]. rewrite append_cons. cbn in Hdev.
    destruct (Ascii.eqb_spec c "/") as [->|Hc]; [done|].
    unfold strip_slash. destruct c as [[] [] [] [] [] [] [] []]; try done. }
  unfold key_of, rem_of, parts, is_bare. rewrite Hstrip.
  change ("/" +:+ r) with (String "/" r).
  by rewrite split_slash_append.
Qed.

(** A bare word [name ++ s] whose first digit is the first character of
    [s]. *)
Lemma parts_word name s :
  has_char "/" name = false -> has_char "/" s = false ->
  first_digit name = String.length name -> first_digit s = 0%nat ->
  is_bare (name +:+ s) = true /\
  key_of (name +:+ s) = name /\
  rem_of (name +:+ s) = s.
Proof.
  intros Hname Hs Hnd Hd.
  assert (has_char "/" (name +:+ s) = false) as Hno
    by by rewrite has_char_append, Hname, Hs.
  unfold key_of, rem_of, parts, is_bare.
  rewrite strip_slash_no_slash, split_slash_no_slash by done.
  cbn [fst snd List.hd].
  rewrite first_digit_append, Hd, Nat.add_0_r by done.
  by rewrite str_take_append, str_drop_append.
Qed.

Lemma str_contains_char c s : str_contains (String c "") s = has_char c s.
Proof.
  induction s as [|c' s IH]; [done|]. cbn. rewrite IH. f_equal.
  destruct (Ascii.ascii_dec c c') as [->|Hc].
  - rewrite Ascii.eqb_refl. by destruct s.
  - symmetry. apply Ascii.eqb_neq. congruence.
Qed.

Lemma has_char_comma_uint d :
  has_char "," (NilEmpty.string_of_uint d) = false.
Proof. induction d; done. Qed.

Lemma has_char_comma_nilzero d :
  has_char "," (NilZero.string_of_uint d) = false.
Proof.
  unfold NilZero.string_of_uint.
  destruct d; [done|apply has_char_comma_uint..].
Qed.

(** The decimal numeral of an integer has no comma. *)
Lemma has_char_comma_str_of_Z z : has_char "," (str_of_Z z) = false.
Proof.
  unfold str_of_Z, NilZero.string_of_int.
  destruct (Z.to_int z) as [d|d]; [apply has_char_comma_nilzero|].
  cbn [has_char]. by rewrite has_char_comma_nilzero.
Qed.

Lemma last_range lo hi : lo <= hi -> List.last (range lo (hi + 1)) 0 = hi.
Proof.
  intros Hle. unfold range.
  replace (hi + 1 - lo) with (Z.of_nat (S (Z.to_nat (hi - lo)))) by lia.
  rewrite seqZ_S, last_last. lia.
Qed.

(** Lines 134-141 on suffixes whose sorted values are [lo .. hi]. *)
Lemma emit_ints_range sufs vs lo hi :
  mapM int_of_str sufs = Some vs ->
  sorted_int vs = range lo (hi + 1) ->
  lo < hi ->
  emit_ints sufs = Ok (Append (str_of_Z lo +:+ ":" +:+ str_of_Z hi)).
Proof.
  intros Hvs Hsorted Hlt. unfold emit_ints, ints. rewrite Hvs.
  cbn [mbind result_bind]. rewrite Hsorted.
  assert (length (range lo (hi + 1)) = Z.to_nat (hi + 1 - lo))
    as Hlen by apply length_seqZ.
  assert ((length (range lo (hi + 1)) =? 1)%nat = false) as ->
    by (apply Nat.eqb_neq; lia).
  rewrite last_range by lia.
  assert (List.hd 0 (range lo (hi + 1)) = lo) as ->
    by (unfold range; rewrite seqZ_cons by lia; done).
  by rewrite bool_decide_eq_true_2.
Qed.

Section run.
Variable set_iter : pyset -> list string.
Hypothesis set_iter_ok : iter_ok set_iter.
Variables (sufs : list string) (vs : list Z) (lo hi : Z).
Hypothesis sufs_NoDup : NoDup sufs.
Hypothesis sufs_digits : forall s, s ∈ sufs ->
  has_char "/" s = false /\ first_digit s = 0%nat.
Hypothesis sufs_ints : mapM int_of_str sufs = Some vs.
Hypothesis vs_run : sorted_int vs = range lo (hi + 1).
Hypothesis lo_hi : lo < hi.

Lemma sufs_two :
  (2 <= length sufs)%nat /\
  exists s1 s2, s1 ∈ sufs /\ s2 ∈ sufs /\ s1 <> s2.
Proof.
  assert (length sufs = length vs) as Hlen by by eapply length_mapM.
  assert (length vs = Z.to_nat (hi + 1 - lo)) as Hlen'.
  { rewrite <- (length_seqZ lo), <- (Permutation_length
      (merge_sort_Permutation Z.le vs)). by f_equal. }
  split; [lia|].
  destruct sufs as [|s1 [|s2 t]]; cbn in Hlen; [lia..|].
  exists s1, s2. split; [left|]. split; [right; left|].
  apply NoDup_cons in sufs_NoDup as [Hs1 _]. intros ->. apply Hs1. left.
Qed.

(** The suffixes alone: [lo:hi]. *)
Lemma make_pattern_suffixes lst _main :
  same_paths lst sufs ->
  make_pattern set_iter lst _main
  = Ok (Some (str_of_Z lo +:+ ":" +:+ str_of_Z hi)).
Proof.
  intros Hsame. destruct sufs_two as (Htwo & s1 & s2 & Hs1 & Hs2 & Hne).
  assert (forall p, p ∈ lst ->
            is_bare p = true /\ key_of p = "" /\ rem_of p = p) as Hparts.
  { intros p [Hp Hd]%Hsame%sufs_digits.
    by apply (parts_word "" p). }
  unfold make_pattern. cbn [make_pattern_fuel].
  destruct (make_pattern_body_single set_iter
              (fun l => make_pattern_fuel set_iter (max_len lst) l false)
              lst _main "" true set_iter_ok)
    as (lst' & Hnd & Hlst' & ->).
  - intros ->. by apply Hsame, elem_of_nil in Hs1.
  - intros p Hp. by apply Hparts.
  - intros p Hp. by apply Hparts.
  - assert (lst' ≡ₚ sufs) as Hperm.
    { apply NoDup_Permutation; [done..|]. intros x. rewrite Hlst'. split.
      - intros (p & Hp & <-). destruct (Hparts p Hp) as (_ & _ & ->).
        by apply Hsame.
      - intros Hx%Hsame. exists x. split; [done|]. by apply Hparts. }
    assert (emit_prefix
              (fun l => make_pattern_fuel set_iter (max_len lst) l false)
              lst _main true "" lst' = emit_ints lst') as ->.
    { pose proof (Permutation_length Hperm) as Hlen.
      destruct lst' as [|x [|y t]]; cbn in Hlen; [lia..|done]. }
    rewrite (emit_ints_perm _ _ Hperm).
    by rewrite (emit_ints_range sufs vs lo hi).
Qed.
End run.

Lemma no_comma_range lo hi :
  str_contains "," (str_of_Z lo +:+ ":" +:+ str_of_Z hi) = false.
Proof.
  rewrite str_contains_char, !has_char_append, !has_char_comma_str_of_Z.
  done.
Qed.

(** The channel names [name ++ s] for the suffixes [s] of a run
    [lo .. hi]: [name lo:hi]. *)
Lemma make_pattern_names set_iter sufs vs lo hi name lst _main :
  iter_ok set_iter ->
  NoDup sufs ->
  (forall s, s ∈ sufs -> has_char "/" s = false /\ first_digit s = 0%nat) ->
  mapM int_of_str sufs = Some vs ->
  sorted_int vs = range lo (hi + 1) ->
  lo < hi ->
  has_char "/" name = false ->
  first_digit name = String.length name ->
  (forall q, q ∈ lst <-> exists s, s ∈ sufs /\ q = name +:+ s) ->
  make_pattern set_iter lst _main
  = Ok (Some (name +:+ str_of_Z lo +:+ ":" +:+ str_of_Z hi)).
Proof.
  intros Hit Hnd Hdig Hints Hrun Hlt Hslash Hnodigit Hlst.
  destruct (decide (name = "")) as [->|Hname].
  { rewrite append_nil.
    apply (make_pattern_suffixes set_iter Hit sufs vs lo hi); try done.
    intros q. rewrite Hlst. split; [by intros (s & ? & ->)|eauto]. }
  destruct (sufs_two sufs vs lo hi Hnd Hdig Hints Hrun Hlt)
    as (_ & s1 & s2 & Hs1 & Hs2 & Hne).
  assert (forall q, q ∈ lst ->
            is_bare q = true /\ key_of q = name /\
            exists s, s ∈ sufs /\ q = name +:+ s /\ rem_of q = s) as Hparts.
  { intros q (s & Hs & ->)%Hlst. destruct (Hdig s Hs) as [? ?].
    destruct (parts_word name s) as (? & ? & ?); eauto 10. }
  destruct (make_pattern_single_group set_iter lst _main name true Hit Hname)
    as (lst' & Hnd' & Hlst' & ->).
  - intros q Hq. by apply Hparts.
  - intros q Hq. by apply Hparts.
  - exists (name +:+ s1), (name +:+ s2).
    assert (name +:+ s1 ∈ lst) as H1 by (apply Hlst; eauto).
    assert (name +:+ s2 ∈ lst) as H2 by (apply Hlst; eauto).
    split; [done|]. split; [done|].
    destruct (Hparts _ H1) as (_ & _ & s1' & _ & ->%append_inj_r & ->).
    destruct (Hparts _ H2) as (_ & _ & s2' & _ & ->%append_inj_r & ->).
    done.
  - rewrite (make_pattern_suffixes set_iter Hit sufs vs lo hi); try done.
    + unfold braces. by rewrite no_comma_range.
    + intros x. rewrite Hlst'. split.
      * intros (q & Hq & <-).
        by destruct (Hparts q Hq) as (_ & _ & s & ? & _ & ->).
      * intros Hx. exists (name +:+ x).
        assert (name +:+ x ∈ lst) as Hin by (apply Hlst; eauto).
        split; [done|].
        by destruct (Hparts _ Hin) as (_ & _ & s & _ & ->%append_inj_r & ->).
Qed.

(** The paths [dev/name s]: [dev/name lo:hi].  This is the general form of
    C2. *)
Lemma make_pattern_run set_iter sufs vs lo hi dev name paths _main :
  iter_ok set_iter ->
  NoDup sufs ->
  (forall s, s ∈ sufs -> has_char "/" s = false /\ first_digit s = 0%nat) ->
  mapM int_of_str sufs = Some vs ->
  sorted_int vs = range lo (hi + 1) ->
  lo < hi ->
  dev <> "" ->
  has_char "/" dev = false ->
  has_char "/" name = false ->
  has_char "," name = false ->
  first_digit name = String.length name ->
  (forall p, p ∈ paths <->
     exists s, s ∈ sufs /\ p = dev +:+ "/" +:+ name +:+ s) ->
  make_pattern set_iter paths _main
  = Ok (Some (dev +:+ "/" +:+ name +:+ str_of_Z lo +:+ ":" +:+ str_of_Z hi)).
Proof.
  intros Hit Hnd Hdig Hints Hrun Hlt Hdev Hdslash Hslash Hcomma Hnodigit
    Hpaths.
  destruct (sufs_two sufs vs lo hi Hnd Hdig Hints Hrun Hlt)
    as (_ & s1 & s2 & Hs1 & Hs2 & Hne).
  assert (forall p, p ∈ paths ->
            is_bare p = false /\ key_of p = dev /\
            exists s, s ∈ sufs /\ p = dev +:+ "/" +:+ name +:+ s
                      /\ rem_of p = name +:+ s) as Hparts.
  { intros p (s & Hs & ->)%Hpaths.
    destruct (parts_device dev (name +:+ s)) as (? & ? & ?); eauto 10. }
  assert (forall s, s ∈ sufs -> dev +:+ "/" +:+ name +:+ s ∈ paths) as Hin
    by (intros s Hs; apply Hpaths; eauto).
  destruct (make_pattern_single_group set_iter paths _main dev false Hit Hdev)
    as (lst & Hnd' & Hlst & ->).
  - intros p Hp. by apply Hparts.
  - intros p Hp. by apply Hparts.
  - exists (dev +:+ "/" +:+ name +:+ s1), (dev +:+ "/" +:+ name +:+ s2).
    split; [by apply Hin|]. split; [by apply Hin|].
    destruct (parts_device dev (name +:+ s1) Hdev Hdslash) as (_ & _ & ->).
    destruct (parts_device dev (name +:+ s2) Hdev Hdslash) as (_ & _ & ->).
    by intros ?%append_inj_r.
  - rewrite (make_pattern_names set_iter sufs vs lo hi name); try done.
    + unfold braces. rewrite str_contains_char, has_char_append, Hcomma.
      rewrite <- str_contains_char, no_comma_range. done.
    + intros q. rewrite Hlst. split.
      * intros (p & Hp & <-).
        destruct (Hparts p Hp) as (_ & _ & s & ? & _ & ->). eauto.
      * intros (s & Hs & ->). exists (dev +:+ "/" +:+ name +:+ s).
        split; [by apply Hin|].
        by destruct (parts_device dev (name +:+ s) Hdev Hdslash)
          as (_ & _ & ->).
Qed.

(** ** The recursion without fuel *)

Lemma emit_all_ext set_iter recurse recurse' paths _main m flag keys :
  (forall k, k ∈ keys -> k <> "" ->
     (2 <= length (set_iter (m !!! k)))%nat ->
     recurse (set_iter (m !!! k)) = recurse' (set_iter (m !!! k))) ->
  forall r,
    emit_all set_iter recurse paths _main m flag keys r
    = emit_all set_iter recurse' paths _main m flag keys r.
Proof.
  induction keys as [|k keys IH]; intros Hrec r; cbn [emit_all]; [done|].
  assert (emit_prefix recurse paths _main flag k (set_iter (m !!! k))
          = emit_prefix recurse' paths _main flag k (set_iter (m !!! k)))
    as ->.
  { specialize (Hrec k ltac:(left)).
    destruct (set_iter (m !!! k)) as [|x [|y t]]; cbn [emit_prefix];
      [done..|].
    destruct (String.eqb_spec k "") as [->|Hk]; cbn [negb]; [done|].
    rewrite Hrec; [done..|cbn; lia]. }
  destruct (emit_prefix recurse' _ _ _ _ _) as [[piece|v]| |];
    cbn [mbind result_bind]; [|done..].
  apply IH. intros k' Hk'. apply Hrec. by right.
Qed.

(** [make_pattern] satisfies the recursive equation of the source. *)
Lemma make_pattern_unfold set_iter paths _main :
  iter_ok set_iter ->
  make_pattern set_iter paths _main
  = make_pattern_body set_iter
      (fun lst => make_pattern set_iter lst false) paths _main.
Proof.
  intros Hit. unfold make_pattern at 1. cbn [make_pattern_fuel].
  unfold make_pattern_body.
  destruct (group_paths (∅, false) paths) as [[m f]| |] eqn:Hg; [|done..].
  cbn [mbind result_bind]. apply emit_all_ext.
  intros k _ Hk Hlen. apply make_pattern_fuel_stable; [done|].
  apply group_paths_spec in Hg as (_ & Hmem & Hnd & _).
  rewrite lookup_total_members in *.
  apply max_len_lt.
  - intros Heq. rewrite Heq in Hlen. cbn in Hlen. lia.
  - intros x Hx. rewrite (Hit _ (Hnd k)) in Hx.
    apply Hmem in Hx as (p & Hp & <- & <-).
    pose proof (rem_of_shorter p Hk).
    assert (String.length p <= max_len paths)%nat
      by by apply (max_len_le paths (max_len paths)).
    lia.
Qed.

(** When every set holds one remainder the emission loop returns a
    string. *)
Lemma emit_all_singletons set_iter recurse paths _main m flag keys :
  (forall k, k ∈ keys -> exists x, set_iter (m !!! k) = [x]) ->
  forall r, exists s,
    emit_all set_iter recurse paths _main m flag keys r = Ok (Some s).
Proof.
  induction keys as [|k keys IH]; intros Hone r; cbn [emit_all]; [eauto|].
  destruct (Hone k ltac:(left)) as [x ->]. cbn [emit_prefix].
  destruct flag; cbn [mbind result_bind]; apply IH;
    intros k' Hk'; apply Hone; by right.
Qed.

(** ** The claims about [make_pattern] *)

(** C10: on a list of one path [make_pattern] returns the path, without
    its leading slash if it has one. *)
Theorem make_pattern_single_path (set_iter : pyset -> list string)
    (p : string) (_main : bool) :
  iter_ok set_iter ->
  make_pattern set_iter [p] _main = Ok (Some (strip_slash p)).
Proof.
  intros Hit. unfold make_pattern. cbn [make_pattern_fuel].
  destruct (make_pattern_body_single set_iter
              (fun lst => make_pattern_fuel set_iter (max_len [p]) lst false)
              [p] _main (key_of p) (is_bare p) Hit)
    as (lst & Hnd & Hlst & ->).
  - done.
  - by intros q ->%list_elem_of_singleton.
  - by intros q ->%list_elem_of_singleton.
  - assert (lst = [rem_of p]) as ->.
    { apply NoDup_all_equal; [done| |].
      - apply Hlst. exists p. split; [left|done].
      - by intros y (q & ->%list_elem_of_singleton & <-)%Hlst. }
    cbn [emit_prefix]. rewrite <- parts_join.
    by destruct (is_bare p).
Qed.

(** C10 at work on a path with a leading slash and on one without. *)
Lemma make_pattern_single_path_witness :
  make_pattern insertion_order ["/Dev1/ao3"] true = Ok (Some "Dev1/ao3") /\
  make_pattern insertion_order ["ao3"] true = Ok (Some "ao3").
Proof.
  split.
  - exact (make_pattern_single_path insertion_order "/Dev1/ao3" true
             iter_ok_insertion_order).
  - exact (make_pattern_single_path insertion_order "ao3" true
             iter_ok_insertion_order).
Defined.

(** C2: paths [dev/name s] whose suffixes [s] are numerals with the sorted
    values [lo .. hi], [lo < hi], compress to [dev/name lo:hi], whatever
    the order and the repetitions of the paths and whatever the iteration
    order of sets; and the seven paths of the test give ["Dev1/ao1:7"]. *)
Theorem make_pattern_contiguous_run (set_iter : pyset -> list string) :
  iter_ok set_iter ->
  (forall (sufs : list string) (vs : list Z) (lo hi : Z) (dev name : string)
          (paths : list string),
     NoDup sufs ->
     (forall s, s ∈ sufs -> has_char "/" s = false /\ first_digit s = 0%nat) ->
     mapM int_of_str sufs = Some vs ->
     sorted_int vs = range lo (hi + 1) ->
     lo < hi ->
     dev <> "" ->
     has_char "/" dev = false ->
     has_char "/" name = false ->
     has_char "," name = false ->
     first_digit name = String.length name ->
     (forall p, p ∈ paths <->
        exists s, s ∈ sufs /\ p = dev +:+ "/" +:+ name +:+ s) ->
     make_pattern set_iter paths true
     = Ok (Some (dev +:+ "/" +:+ name +:+ str_of_Z lo +:+ ":" +:+ str_of_Z hi)))
  /\
  make_pattern set_iter test_paths true = Ok (Some "Dev1/ao1:7").
Proof.
  intros Hit. split.
  - intros. by eapply make_pattern_run.
  - rewrite (make_pattern_iter_indep set_iter insertion_order);
      [by vm_compute|done|apply iter_ok_insertion_order|by vm_compute].
Qed.

(** C2 at work on the paths of the test, given in another order and with
    a repetition. *)
Lemma make_pattern_contiguous_run_witness :
  make_pattern insertion_order
    ["Dev1/ao3"; "Dev1/ao2"; "Dev1/ao1"; "Dev1/ao4"; "Dev1/ao7";
     "Dev1/ao6"; "Dev1/ao5"; "Dev1/ao3"] true
  = Ok (Some "Dev1/ao1:7").
Proof.
  refine (proj1 (make_pattern_contiguous_run insertion_order
                   iter_ok_insertion_order)
            ["1"; "2"; "3"; "4"; "5"; "6"; "7"] [1; 2; 3; 4; 5; 6; 7] 1 7
            "Dev1" "ao" _ _ _ _ _ _ _ _ _ _ _ _).
  - by apply (bool_decide_unpack _).
  - intros s Hs. by repeat (apply elem_of_cons in Hs as [->|Hs];
      [done|]); apply elem_of_nil in Hs.
  - reflexivity.
  - reflexivity.
  - lia.
  - done.
  - reflexivity.
  - reflexivity.
  - reflexivity.
  - reflexivity.
  - intros p. split.
    + intros Hp. repeat (apply elem_of_cons in Hp as [->|Hp];
        [eexists; split; [|reflexivity]; set_solver|]).
      by apply elem_of_nil in Hp.
    + intros (s & Hs & ->). repeat (apply elem_of_cons in Hs as [->|Hs];
        [set_solver|]). by apply elem_of_nil in Hs.
Defined.

(** C6: [make_pattern] obeys the recursive equation of the source, in which
    the turn of a prefix that is not empty and has several remainders
    recurses on the remainders; the sub-pattern that the recursive call
    returns is put in braces exactly when it has a comma; and the twelve
    paths of the test give ["Dev0/ao0:1,Dev1/{ai1:3,ao1:7}"]. *)
Theorem make_pattern_braces (set_iter : pyset -> list string) :
  iter_ok set_iter ->
  (forall paths _main,
     make_pattern set_iter paths _main
     = make_pattern_body set_iter
         (fun lst => make_pattern set_iter lst false) paths _main) /\
  (forall paths _main flag prefix lst sub,
     prefix <> "" -> (2 <= length lst)%nat ->
     make_pattern set_iter lst false = Ok (Some sub) ->
     emit_prefix (fun lst => make_pattern set_iter lst false)
       paths _main flag prefix lst
     = Ok (Append (if flag then prefix +:+ braces sub
                   else prefix +:+ "/" +:+ braces sub)) /\
     (str_contains "," sub = true -> braces sub = "{" +:+ sub +:+ "}") /\
     (str_contains "," sub = false -> braces sub = sub)) /\
  make_pattern set_iter test_paths_ai true
  = Ok (Some "Dev0/ao0:1,Dev1/{ai1:3,ao1:7}").
Proof.
  intros Hit. split; [|split].
  - intros. by apply make_pattern_unfold.
  - intros paths _main flag prefix lst sub Hprefix Hlen Hsub. split.
    + destruct lst as [|x [|y t]]; cbn in Hlen; [lia..|].
      cbn [emit_prefix].
      assert (negb (prefix =? "")%string = true) as ->
        by by apply negb_true_iff, String.eqb_neq.
      rewrite Hsub. cbn [mbind result_bind]. by destruct flag.
    + unfold braces. split; intros ->; done.
  - rewrite (make_pattern_iter_indep set_iter insertion_order);
      [by vm_compute|done|apply iter_ok_insertion_order|by vm_compute].
Qed.

(** C6 at work on the group of [Dev1] in the paths of the test, whose
    sub-pattern has a comma, and on the group of [Dev0], whose sub-pattern
    has none. *)
Lemma make_pattern_braces_witness :
  emit_prefix (fun lst => make_pattern insertion_order lst false)
    test_paths_ai true false "Dev1"
    ["ao1"; "ao2"; "ao3"; "ao4"; "ao5"; "ao6"; "ao7"; "ai1"; "ai2"; "ai3"]
  = Ok (Append "Dev1/{ai1:3,ao1:7}") /\
  emit_prefix (fun lst => make_pattern insertion_order lst false)
    test_paths_ai true false "Dev0" ["ao1"; "ao0"]
  = Ok (Append "Dev0/ao0:1").
Proof.
  split.
  - refine (proj1 (proj1 (proj2 (make_pattern_braces insertion_order
              iter_ok_insertion_order)) test_paths_ai true false "Dev1"
              ["ao1"; "ao2"; "ao3"; "ao4"; "ao5"; "ao6"; "ao7";
               "ai1"; "ai2"; "ai3"] "ai1:3,ao1:7" _ _ _));
      [done|cbn; lia|by vm_compute].
  - refine (proj1 (proj1 (proj2 (make_pattern_braces insertion_order
              iter_ok_insertion_order)) test_paths_ai true false "Dev0"
              ["ao1"; "ao0"] "ao0:1" _ _ _));
      [done|cbn; lia|by vm_compute].
Defined.

(** C4, the code at the failing input: on the bare numerals ["1"] and
    ["3"], and on ["//1"] and ["//3"], the branch that does not form a run
    is the one of the top-level call itself, and [make_pattern] returns
    [None] instead of the comma-joined input; below a prefix the fallback
    works. *)
Theorem make_pattern_top_level_None (set_iter : pyset -> list string) :
  iter_ok set_iter ->
  make_pattern set_iter ["1"; "3"] true = Ok None /\
  make_pattern set_iter ["//1"; "//3"] true = Ok None /\
  make_pattern set_iter ["Dev1/ao1"; "Dev1/ao3"] true
  = Ok (Some "Dev1/ao1,Dev1/ao3").
Proof.
  intros Hit. repeat split;
    (rewrite (make_pattern_iter_indep set_iter insertion_order);
     [by vm_compute|done|apply iter_ok_insertion_order|by vm_compute]).
Qed.

Lemma make_pattern_top_level_None_witness :
  make_pattern insertion_order ["1"; "3"] true = Ok None /\
  make_pattern insertion_order ["//1"; "//3"] true = Ok None /\
  make_pattern insertion_order ["Dev1/ao1"; "Dev1/ao3"] true
  = Ok (Some "Dev1/ao1,Dev1/ao3").
Proof.
  exact (make_pattern_top_level_None insertion_order iter_ok_insertion_order).
Defined.

(** C7, counterexample: two lists that are permutations of each other and
    fall back to the comma-joined input give different strings, under
    every iteration order of sets. *)
Lemma make_pattern_order_dependent :
  ["Dev1/ao1"; "Dev1/ao3"] ≡ₚ ["Dev1/ao3"; "Dev1/ao1"] /\
  forall set_iter, iter_ok set_iter ->
    make_pattern set_iter ["Dev1/ao1"; "Dev1/ao3"] true
      = Ok (Some "Dev1/ao1,Dev1/ao3") /\
    make_pattern set_iter ["Dev1/ao3"; "Dev1/ao1"] true
      = Ok (Some "Dev1/ao3,Dev1/ao1") /\
    make_pattern set_iter ["Dev1/ao1"; "Dev1/ao3"] true
      <> make_pattern set_iter ["Dev1/ao3"; "Dev1/ao1"] true.
Proof.
  split; [apply Permutation_swap|]. intros set_iter Hit.
  assert (forall l r,
            uniform (S (max_len l)) l = true ->
            make_pattern insertion_order l true = r ->
            make_pattern set_iter l true = r) as Hrun.
  { intros l r Huni <-.
    by apply make_pattern_iter_indep; [|apply iter_ok_insertion_order|]. }
  rewrite (Hrun ["Dev1/ao1"; "Dev1/ao3"] (Ok (Some "Dev1/ao1,Dev1/ao3")))
    by by vm_compute.
  rewrite (Hrun ["Dev1/ao3"; "Dev1/ao1"] (Ok (Some "Dev1/ao3,Dev1/ao1")))
    by by vm_compute.
  done.
Qed.

(** C7, as amended: two calls on lists with the same paths, in any order
    and with any repetitions, neither of which fails the assertion, return
    the same result, unless both abort, in which case each returns its own
    input joined by commas. *)
Theorem make_pattern_order_independent (set_iter : pyset -> list string)
    (paths1 paths2 : list string) :
  iter_ok set_iter ->
  same_paths paths1 paths2 ->
  make_pattern set_iter paths1 true <> Raise AssertionError ->
  make_pattern set_iter paths2 true <> Raise AssertionError ->
  make_pattern set_iter paths1 true = make_pattern set_iter paths2 true \/
  (make_pattern set_iter paths1 true = Ok (Some (String.concat "," paths1)) /\
   make_pattern set_iter paths2 true = Ok (Some (String.concat "," paths2))).
Proof.
  intros Hit Hsame Hna1 Hna2. unfold make_pattern in *.
  rewrite <- (max_len_same_paths _ _ Hsame) in *.
  destruct (make_pattern_fuel_rel _ _ Hit Hit (S (max_len paths1))
              paths1 paths2 true Hsame) as [?|[?|Hrel]]; [done..|].
  destruct (make_pattern_fuel set_iter _ paths1 _) as [v1|e1|],
           (make_pattern_fuel set_iter _ paths2 _) as [v2|e2|]; try done.
  - destruct Hrel as [->|(_ & -> & ->)]; auto.
  - left. by subst.
  - by left.
Qed.

(** The amended C7 at work on the paths of the test and a reordering of
    them with repetitions. *)
Lemma make_pattern_order_independent_witness :
  make_pattern insertion_order test_paths_ai true
  = make_pattern insertion_order
      ("Dev1/ai3" :: "Dev0/ao0" :: reverse test_paths_ai) true \/
  (make_pattern insertion_order test_paths_ai true
   = Ok (Some (String.concat "," test_paths_ai)) /\
   make_pattern insertion_order
     ("Dev1/ai3" :: "Dev0/ao0" :: reverse test_paths_ai) true
   = Ok (Some (String.concat ","
                 ("Dev1/ai3" :: "Dev0/ao0" :: reverse test_paths_ai)))).
Proof.
  apply (make_pattern_order_independent insertion_order).
  - apply iter_ok_insertion_order.
  - intros p. rewrite !elem_of_cons, elem_of_reverse.
    split; [auto|]. intros [->|[->|?]]; [| |done];
      unfold test_paths_ai, test_paths; set_solver.
  - by vm_compute.
  - by vm_compute.
Defined.

(** C8, counterexample: in [["a1"; "b/c"; "d2"]] the bare token ["d2"] is
    met after the path ["b/c"] of two segments has been processed, and no
    assertion fails: the call returns a string. *)
Lemma make_pattern_bare_after_multi :
  is_bare "b/c" = false /\ is_bare "d2" = true /\
  forall set_iter, iter_ok set_iter ->
    make_pattern set_iter ["a1"; "b/c"; "d2"] true = Ok (Some "a1,bc,d2").
Proof.
  split; [done|]. split; [done|]. intros set_iter Hit.
  rewrite make_pattern_unfold by done. unfold make_pattern_body.
  assert (forall x, set_iter [x] = [x]) as Hone.
  { intros x. apply Permutation_singleton_r, Hit, NoDup_singleton. }
  assert (group_paths (∅, false) ["a1"; "b/c"; "d2"]
          = Ok (<["d" := ["2"]]> (<["b" := ["c"]]> (<["a" := ["1"]]> ∅)),
                true)) as -> by by vm_compute.
  cbn [mbind result_bind].
  assert (sorted_str (elements (dom
            (<["d" := ["2"]]> (<["b" := ["c"]]> (<["a" := ["1"]]>
               (∅ : gmap string pyset))))))
          = ["a"; "b"; "d"]) as -> by by vm_compute.
  cbn [emit_all].
  rewrite !lookup_total_members.
  assert (members (<["d" := ["2"]]> (<["b" := ["c"]]>
                     (<["a" := ["1"]]> ∅))) "a" = ["1"]) as ->
    by by vm_compute.
  assert (members (<["d" := ["2"]]> (<["b" := ["c"]]>
                     (<["a" := ["1"]]> ∅))) "b" = ["c"]) as ->
    by by vm_compute.
  assert (members (<["d" := ["2"]]> (<["b" := ["c"]]>
                     (<["a" := ["1"]]> ∅))) "d" = ["2"]) as ->
    by by vm_compute.
  rewrite !Hone. reflexivity.
Qed.

(** C8, as amended: the loop of a call fails the assertion exactly when
    the first path has several segments and a later path is bare, and then
    the call raises [AssertionError]; a bare token that comes after another
    bare token passes.  When the first path is bare, the loop of the call
    raises nothing, and the call returns a string if no prefix has two
    different remainders. *)
Theorem make_pattern_assertion (set_iter : pyset -> list string)
    (paths : list string) (_main : bool) :
  iter_ok set_iter ->
  (group_paths (∅, false) paths = Raise AssertionError <->
     exists p rest, paths = p :: rest /\ is_bare p = false /\
                    exists q, q ∈ rest /\ is_bare q = true) /\
  (group_paths (∅, false) paths = Raise AssertionError ->
     make_pattern set_iter paths _main = Raise AssertionError) /\
  (forall p rest, paths = p :: rest -> is_bare p = true ->
     (exists st, group_paths (∅, false) paths = Ok st) /\
     ((forall q q', q ∈ paths -> q' ∈ paths -> key_of q = key_of q' ->
         rem_of q = rem_of q') ->
      exists s, make_pattern set_iter paths _main = Ok (Some s))).
Proof.
  intros Hit. split; [apply group_paths_assertion|]. split.
  - intros Hg. unfold make_pattern. cbn [make_pattern_fuel].
    unfold make_pattern_body. by rewrite Hg.
  - intros p rest -> Hbare.
    destruct (group_paths_result (p :: rest) (∅, false))
      as [[[m f] Hg]|Hg].
    2:{ apply group_paths_assertion in Hg as (? & ? & [= <- <-] & ? & _).
        congruence. }
    split; [eauto|]. intros Hsingle.
    unfold make_pattern. cbn [make_pattern_fuel]. unfold make_pattern_body.
    rewrite Hg. cbn [mbind result_bind].
    apply group_paths_spec in Hg as (_ & Hmem & Hnd & Hdom).
    apply emit_all_singletons. intros k Hk.
    unfold sorted_str in Hk. rewrite merge_sort_Permutation in Hk.
    apply elem_of_elements, Hdom in Hk as (q & Hq & <-).
    exists (rem_of q). rewrite lookup_total_members.
    apply Permutation_singleton_r. rewrite (Hit _ (Hnd _)).
    assert (members m (key_of q) = [rem_of q]) as ->; [|done].
    apply NoDup_all_equal; [done| |].
    + apply Hmem. eauto.
    + intros y (q' & Hq' & Hkey & <-)%Hmem. by apply Hsingle.
Qed.

(** The amended C8 at work: a bare token first and a path of two segments
    later give a string; the other way round the assertion fails. *)
Lemma make_pattern_assertion_witness :
  (exists s, make_pattern insertion_order ["ao1"; "Dev1/ao2"] true
             = Ok (Some s)) /\
  make_pattern insertion_order ["Dev1/ao2"; "ao1"] true
  = Raise AssertionError.
Proof.
  split.
  - refine (proj2 (proj2 (proj2 (make_pattern_assertion insertion_order
              ["ao1"; "Dev1/ao2"] true iter_ok_insertion_order))
              "ao1" ["Dev1/ao2"] _ _) _); [done..|].
    intros q q' Hq Hq'.
    apply elem_of_cons in Hq as [->|Hq];
      [|apply list_elem_of_singleton in Hq as ->];
      (apply elem_of_cons in Hq' as [->|Hq'];
       [|apply list_elem_of_singleton in Hq' as ->]);
      vm_compute; congruence.
  - refine (proj1 (proj2 (make_pattern_assertion insertion_order
              ["Dev1/ao2"; "ao1"] true iter_ok_insertion_order)) _).
    by vm_compute.
Defined.

(** * Further properties of [CHK] *)

(** If the attempts ask for more room [k] times and the next one raises a
    [RuntimeError] that is not about the size, the loop re-raises it as
    [NIDAQmxRuntimeError]. *)
Lemma retry_loop_breaks (lib : libnidaqmx_t) (k : nat) :
  forall fuel return_code l w msg value,
  (k < fuel)%nat ->
  1 <= buf_size l ->
  buf_size l * 2 ^ Z.of_nat k < 1000000 ->
  (forall j : nat, (j < k)%nat ->
     wants_more lib return_code (buf_size l * 2 ^ Z.of_nat j)) ->
  attempt lib return_code (buf_size l * 2 ^ Z.of_nat k)
    = (RuntimeError msg, value) ->
  str_contains too_small msg = false ->
  exists w',
    retry_loop lib fuel return_code l w
      = (Raise (NIDAQmxRuntimeError msg), w') /\
    stderr w' = stderr w.
Proof.
  induction k as [|k IH]; intros fuel return_code l w msg value
    Hfuel Hpos Hlt Hmore Hatt Hmsg.
  - destruct fuel as [|fuel]; [lia|].
    change (Z.of_nat 0) with 0 in *. rewrite Z.pow_0_r, Z.mul_1_r in *.
    rewrite retry_loop_attempt, Hatt, Hmsg by done. eauto.
  - destruct fuel as [|fuel]; [lia|].
    rewrite Nat2Z.inj_succ, Z.pow_succ_r in Hlt, Hatt by lia.
    assert (0 < 2 ^ Z.of_nat k) by (apply Z.pow_pos_nonneg; lia).
    assert (buf_size l * 1 <= buf_size l * (2 * 2 ^ Z.of_nat k))
      by (apply Z.mul_le_mono_nonneg_l; lia).
    rewrite retry_loop_attempt by lia.
    destruct (Hmore 0%nat) as (msg0 & b & Hatt0 & Hsmall); [lia|].
    change (Z.of_nat 0) with 0 in Hatt0.
    rewrite Z.pow_0_r, Z.mul_1_r in Hatt0. rewrite Hatt0, Hsmall.
    edestruct (IH fuel return_code
                 {| buf_size := buf_size l * 2;
                    r := match DAQmxGetExtendedErrorInfo lib ""
                                 (buf_size l)
                         with (Status r1, _) => Some r1 | _ => r l end;
                    buf := Some b |}
                 (create_string_buffer (buf_size l) w) msg value)
      as (w' & Hrun & Herr); cbn [buf_size].
    + lia.
    + lia.
    + replace (buf_size l * 2 * 2 ^ Z.of_nat k)
        with (buf_size l * (2 * 2 ^ Z.of_nat k)) by lia. done.
    + intros j Hj. specialize (Hmore (S j) ltac:(lia)).
      rewrite Nat2Z.inj_succ, Z.pow_succ_r in Hmore by lia.
      replace (buf_size l * 2 * 2 ^ Z.of_nat j)
        with (buf_size l * (2 * 2 ^ Z.of_nat j)) by lia. done.
    + rewrite <- Hatt. f_equal. lia.
    + done.
    + exists w'. cbn [buf_size] in Hrun. by rewrite Hrun.
Qed.

(** The outcomes of [CHK], for its callers. *)
Lemma CHK_returns {arg : Type} (txt : pytext arg) (lib : libnidaqmx_t)
    (error_map : gmap Z string) (return_code : Z) (funcname : string)
    (args : list arg) (w w' : world) (res : result Z) :
  CHK txt lib error_map return_code funcname args w = (res, w') ->
  match res with
  | Ok r0 =>
    r0 = return_code /\ 0 <= return_code /\
    (return_code = 0 -> w' = w) /\
    (0 < return_code -> exists line, stderr w' = stderr w ++ [line])
  | Raise _ => return_code <> 0 /\ stderr w' = stderr w
  | OutOfFuel => False
  end.
Proof.
  intros Hchk.
  pose proof (CHK_terminates txt lib error_map return_code funcname args w)
    as Hterm. rewrite Hchk in Hterm. cbn in Hterm.
  unfold CHK in Hchk. destruct (return_code =? 0) eqn:Hz.
  { injection Hchk as <- <-. repeat split; auto; lia. }
  apply Z.eqb_neq in Hz.
  destruct (retry_loop lib retry_fuel return_code _ w) as [[l| |] w1]
    eqn:Hloop; apply retry_loop_buffers in Hloop as [Herr _].
  - unfold report, read_local in Hchk.
    destruct (r l) as [rv|]; [|by injection Hchk as <- <-].
    destruct (negb (rv =? 0)).
    + destruct (return_code <? 0) eqn:Hneg.
      * destruct (error_map !! return_code);
          [|by injection Hchk as <- <-].
        destruct (buf l); by injection Hchk as <- <-.
      * injection Hchk as <- <-. apply Z.ltb_ge in Hneg.
        repeat split; [done|lia|]. intros _. cbn. rewrite Herr. eauto.
    + destruct (buf l); [|by injection Hchk as <- <-].
      destruct (return_code <? 0) eqn:Hneg; injection Hchk as <- <-;
        [done|].
      apply Z.ltb_ge in Hneg.
      repeat split; [done|lia|]. intros _. cbn. rewrite Herr. eauto.
  - by injection Hchk as <- <-.
  - by injection Hchk as <- <-.
Qed.

(** X1: what [CHK] returns is the code it was given, which is then not
    negative; a zero code leaves the world alone, a positive code that is
    returned has added exactly one line to [stderr]; and when [CHK] raises,
    [stderr] is as before. *)
Theorem CHK_outcome {arg : Type} (txt : pytext arg) (lib : libnidaqmx_t)
    (error_map : gmap Z string) (return_code : Z) (funcname : string)
    (args : list arg) (w w' : world) (res : result Z) :
  CHK txt lib error_map return_code funcname args w = (res, w') ->
  match res with
  | Ok r0 =>
    r0 = return_code /\ 0 <= return_code /\
    (return_code = 0 -> w' = w) /\
    (0 < return_code -> exists line, stderr w' = stderr w ++ [line])
  | Raise _ => return_code <> 0 /\ stderr w' = stderr w
  | OutOfFuel => False
  end.
Proof. apply CHK_returns. Qed.

(** X1 at work on a warning that is returned and on an error. *)
Lemma CHK_outcome_witness :
  (7 = 7 /\ 0 <= 7 /\
   (7 = 0 ->
    {| stderr := ["DAQmxStartTask() warning:" +:+ newline +:+ "  Invalid task"
                  +:+ newline +:+ "  ----------" +:+ newline];
       buffers := [3000; 6000; 12000] |} = world0) /\
   (0 < 7 -> exists line,
      ["DAQmxStartTask() warning:" +:+ newline +:+ "  Invalid task"
       +:+ newline +:+ "  ----------" +:+ newline] = [] ++ [line])) /\
  (-200088 <> 0 /\ @nil string = []).
Proof.
  split.
  - exact (CHK_outcome plain_text lib_generic error_map_example 7
             "DAQmxStartTask" [] world0 _ (Ok 7) eq_refl).
  - exact (CHK_outcome plain_text lib_no_text error_map_example (-200088)
             "DAQmxStartTask" [] world0 _
             (Raise (NIDAQmxRuntimeError
                "DAQmxStartTask() failed with error InvalidTask=-200088: 'unknown'"))
             eq_refl).
Defined.

(** X2: when the error-text lookup asks for more room [k <= 8] times and
    then raises a [RuntimeError] that is not about the size of the buffer,
    [CHK] raises [NIDAQmxRuntimeError] with the message of that error, for
    a negative and for a positive code alike, and writes nothing. *)
Theorem CHK_lookup_failure {arg : Type} (txt : pytext arg)
    (lib : libnidaqmx_t) (error_map : gmap Z string) (return_code : Z)
    (funcname : string) (args : list arg) (w : world) (k : nat)
    (msg value : string) :
  return_code <> 0 ->
  (k <= 8)%nat ->
  (forall j : nat, (j < k)%nat ->
     wants_more lib return_code (default_buf_size * 2 ^ Z.of_nat j)) ->
  attempt lib return_code (default_buf_size * 2 ^ Z.of_nat k)
    = (RuntimeError msg, value) ->
  str_contains too_small msg = false ->
  exists w',
    CHK txt lib error_map return_code funcname args w
      = (Raise (NIDAQmxRuntimeError msg), w') /\
    stderr w' = stderr w.
Proof.
  intros Hrc Hk Hmore Hatt Hmsg.
  assert (2 ^ Z.of_nat k <= 2 ^ 8) by (apply Z.pow_le_mono_r; lia).
  destruct (retry_loop_breaks lib k retry_fuel return_code
              {| buf_size := default_buf_size; r := None; buf := None |}
              w msg value) as (w' & Hrun & Herr); cbn [buf_size]; try done.
  - vm_compute. lia.
  - unfold default_buf_size. lia.
  - exists w'. unfold CHK.
    assert ((return_code =? 0) = false) as -> by lia. by rewrite Hrun.
Qed.

(** X2 at work: [lib_breaks] wants more room at 3000 and 6000 bytes and
    fails at 12000. *)
Lemma CHK_lookup_failure_witness :
  exists w',
    CHK plain_text lib_breaks error_map_example 7 "DAQmxStartTask" [] world0
      = (Raise (NIDAQmxRuntimeError "Device disconnected"), w') /\
    stderr w' = stderr world0.
Proof.
  apply (CHK_lookup_failure plain_text lib_breaks error_map_example 7
           "DAQmxStartTask" [] world0 2 "Device disconnected" "").
  - lia.
  - lia.
  - intros j Hj. exists too_small, "".
    destruct j as [|[|j]]; [split; reflexivity ..|lia].
  - reflexivity.
  - reflexivity.
Defined.

(** X3: a code that is not in the error-code table, when the loop is left
    with a non-zero status in [r]: a positive code is reported in the
    warning by its decimal numeral; a negative code makes line 44 raise
    [KeyError] in place of the driver error. *)
Theorem CHK_unknown_code {arg : Type} (txt : pytext arg)
    (lib : libnidaqmx_t) (error_map : gmap Z string) (return_code : Z)
    (funcname : string) (args : list arg) (w w' : world) (l : locals)
    (rv : Z) :
  error_map !! return_code = None ->
  retry_loop lib retry_fuel return_code
    {| buf_size := default_buf_size; r := None; buf := None |} w
    = (Ok l, w') ->
  r l = Some rv ->
  rv <> 0 ->
  (0 < return_code ->
     CHK txt lib error_map return_code funcname args w
     = (Ok return_code,
        write_stderr (funcname +:+ str_tuple txt args +:+ " warning: "
                      +:+ str_of_Z return_code +:+ newline) w')) /\
  (return_code < 0 ->
     CHK txt lib error_map return_code funcname args w
     = (Raise (KeyError return_code), w')).
Proof.
  intros Hmap Hloop Hr Hrv.
  assert (negb (rv =? 0) = true) as Hnz by (apply negb_true_iff; lia).
  split; intros Hsign; unfold CHK.
  - assert ((return_code =? 0) = false) as -> by lia.
    rewrite Hloop. unfold report, read_local. rewrite Hr, Hnz, Hmap.
    by assert ((return_code <? 0) = false) as -> by lia.
  - assert ((return_code =? 0) = false) as -> by lia.
    rewrite Hloop. unfold report, read_local. rewrite Hr, Hnz, Hmap.
    by assert ((return_code <? 0) = true) as -> by lia.
Qed.

(** X3 at work with the codes 7 and -7, which the table does not have. *)
Lemma CHK_unknown_code_witness :
  CHK plain_text lib_no_text error_map_example 7 "DAQmxStartTask" [] world0
  = (Ok 7, {| stderr := ["DAQmxStartTask() warning: 7" +:+ newline];
              buffers := [3000] |}) /\
  CHK plain_text lib_no_text error_map_example (-7) "DAQmxStartTask" [] world0
  = (Raise (KeyError (-7)), {| stderr := []; buffers := [3000] |}).
Proof.
  split.
  - refine (proj1 (CHK_unknown_code plain_text lib_no_text error_map_example
                     7 "DAQmxStartTask" [] world0
                     {| stderr := []; buffers := [3000] |}
                     {| buf_size := 3000; r := Some (-1);
                        buf := Some "unknown" |} (-1) _ _ _ _) _);
      [reflexivity|vm_compute; reflexivity|reflexivity|lia|lia].
  - refine (proj2 (CHK_unknown_code plain_text lib_no_text error_map_example
                     (-7) "DAQmxStartTask" [] world0
                     {| stderr := []; buffers := [3000] |}
                     {| buf_size := 3000; r := Some (-1);
                        buf := Some "unknown" |} (-1) _ _ _ _) _);
      [reflexivity|vm_compute; reflexivity|reflexivity|lia|lia].
Defined.

(** * Further properties of [make_pattern] *)

(** X4: the recursion of [make_pattern] is at most as deep as the longest
    path is long: unfolded more than [max_len paths] times, the function
    comes to a result, and the result is the same for every such depth. *)
Theorem make_pattern_recursion_depth (set_iter : pyset -> list string)
    (fuel : nat) (paths : list string) (_main : bool) :
  iter_ok set_iter ->
  (max_len paths < fuel)%nat ->
  make_pattern_fuel set_iter fuel paths _main <> OutOfFuel /\
  make_pattern_fuel set_iter fuel paths _main
  = make_pattern set_iter paths _main.
Proof.
  intros Hit Hfuel. split.
  - by apply make_pattern_fuel_enough.
  - by apply make_pattern_fuel_stable.
Qed.

Lemma make_pattern_recursion_depth_witness :
  make_pattern_fuel insertion_order 20 test_paths_ai true <> OutOfFuel /\
  make_pattern_fuel insertion_order 20 test_paths_ai true
  = make_pattern insertion_order test_paths_ai true.
Proof.
  apply make_pattern_recursion_depth.
  - apply iter_ok_insertion_order.
  - vm_compute. lia.
Defined.

(** X5: on paths that keep the depth convention (at every level of the
    recursion the paths of a call are all bare or all of several segments)
    no assertion fails, and the result does not depend on the order in
    which Python iterates over the sets of remainders. *)
Theorem make_pattern_depth_convention (set_iter1 set_iter2 : pyset -> list string)
    (paths : list string) (_main : bool) :
  iter_ok set_iter1 -> iter_ok set_iter2 ->
  uniform (S (max_len paths)) paths = true ->
  make_pattern set_iter1 paths _main <> Raise AssertionError /\
  make_pattern set_iter1 paths _main = make_pattern set_iter2 paths _main.
Proof.
  intros Hit1 Hit2 Huni. split.
  - by apply make_pattern_fuel_no_assert.
  - by apply make_pattern_iter_indep.
Qed.

Lemma make_pattern_depth_convention_witness :
  make_pattern (@reverse string)
    ["Dev2/port0/line0"; "Dev2/port0/line1"; "Dev2/port1/line0";
     "Dev2/port1/line1"; "Dev1/ao0"] true
  <> Raise AssertionError /\
  make_pattern (@reverse string)
    ["Dev2/port0/line0"; "Dev2/port0/line1"; "Dev2/port1/line0";
     "Dev2/port1/line1"; "Dev1/ao0"] true
  = make_pattern insertion_order
      ["Dev2/port0/line0"; "Dev2/port0/line1"; "Dev2/port1/line0";
       "Dev2/port1/line1"; "Dev1/ao0"] true.
Proof.
  apply make_pattern_depth_convention.
  - intros s _. apply reverse_Permutation.
  - apply iter_ok_insertion_order.
  - vm_compute. reflexivity.
Defined.





(** ** Decimal numerals *)

Lemma digits_value_acc d : forall acc : positive,
  digits_value (Z.pos acc) (NilEmpty.string_of_uint d)
  = Some (Z.pos (Pos.of_uint_acc d acc)).
Proof.
  induction d; intros acc; cbn [NilEmpty.string_of_uint digits_value
    Pos.of_uint_acc]; [done|..];
    (match goal with
     | |- context [isdigit ?c] => change (isdigit c) with true
     end; cbv iota; rewrite <- IHd; f_equal;
     rewrite ?Pos2Z.inj_add, ?Pos2Z.inj_mul;
     match goal with
     | |- context [Z.of_nat (nat_of_ascii ?c)] =>
       let v := eval vm_compute in (Z.of_nat (nat_of_ascii c)) in
       change (Z.of_nat (nat_of_ascii c)) with v
     end; lia).
Qed.

Lemma digits_value_uint d :
  digits_value 0 (NilEmpty.string_of_uint d) = Some (Z.of_N (Pos.of_uint d)).
Proof.
  induction d; cbn [NilEmpty.string_of_uint digits_value Pos.of_uint];
    [done|..];
    (match goal with
     | |- context [isdigit ?c] => change (isdigit c) with true
     end; cbv iota);
    [exact IHd|cbn [Z.of_N]; rewrite <- digits_value_acc; f_equal ..].
Qed.

Lemma string_of_uint_digits d :
  str_forall isdigit (NilEmpty.string_of_uint d) = true.
Proof. induction d; [done|exact IHd ..]. Qed.

(** The numeral of a natural number: a digit first, digits only, and
    [digits_value] reads it back. *)
Lemma nilzero_spec d :
  exists c s,
    NilZero.string_of_uint d = String c s /\
    isdigit c = true /\ str_forall isdigit s = true /\
    digits_value 0 (String c s) = Some (Z.of_uint d).
Proof.
  unfold NilZero.string_of_uint, Z.of_uint.
  pose proof (digits_value_uint d) as Hv.
  pose proof (string_of_uint_digits d) as Hd.
  destruct d; [by exists "0"%char, ""|..];
    cbn [NilEmpty.string_of_uint] in *;
    (eexists _, _; split; [reflexivity|]; split; [reflexivity|];
     split; [exact Hd|exact Hv]).
Qed.

Lemma rev_app_rev_app s1 : forall s2 s3,
  String.rev_app (String.rev_app s1 s2) s3 = String.rev_app s2 (s1 +:+ s3).
Proof.
  induction s1 as [|c s1 IH]; intros s2 s3; [done|].
  cbn [String.rev_app]. by rewrite IH.
Qed.

Lemma rev_involutive s : String.rev (String.rev s) = s.
Proof.
  unfold String.rev. rewrite rev_app_rev_app. cbn.
  induction s as [|c s IH]; [done|]. rewrite append_cons. by f_equal.
Qed.

Lemma str_forall_rev_app f s1 : forall s2,
  str_forall f (String.rev_app s1 s2) = str_forall f s1 && str_forall f s2.
Proof.
  induction s1 as [|c s1 IH]; intros s2; [done|].
  cbn [String.rev_app str_forall]. rewrite IH. cbn [str_forall].
  by destruct (f c), (str_forall f s1), (str_forall f s2).
Qed.

Lemma str_forall_rev f s : str_forall f (String.rev s) = str_forall f s.
Proof.
  unfold String.rev. rewrite str_forall_rev_app. cbn. apply andb_true_r.
Qed.

Lemma lstrip_no_space s :
  str_forall (fun c => negb (isspace c)) s = true -> lstrip s = s.
Proof.
  destruct s as [|c s]; [done|]. cbn. intros [Hc _]%andb_true_iff.
  apply negb_true_iff in Hc. by rewrite Hc.
Qed.

(** A string without blanks is its own [strip]. *)
Lemma str_strip_no_space s :
  str_forall (fun c => negb (isspace c)) s = true -> str_strip s = s.
Proof.
  intros Hs. unfold str_strip. rewrite (lstrip_no_space s Hs).
  rewrite lstrip_no_space by by rewrite str_forall_rev.
  apply rev_involutive.
Qed.

Lemma str_forall_impl (f g : ascii -> bool) s :
  (forall c, f c = true -> g c = true) ->
  str_forall f s = true -> str_forall g s = true.
Proof.
  intros Hfg. induction s as [|c s IH]; [done|]. cbn.
  intros [Hc Hs]%andb_true_iff. by rewrite (Hfg c Hc), IH.
Qed.

Lemma isdigit_not_space c : isdigit c = true -> negb (isspace c) = true.
Proof.
  unfold isdigit, isspace.
  intros [H1 H2]%andb_true_iff. apply Nat.leb_le in H1, H2.
  apply negb_true_iff, orb_false_iff. split.
  - apply andb_false_iff. right. apply Nat.leb_gt. lia.
  - apply Nat.eqb_neq. lia.
Qed.



(** [int(str(z)) == z], and what [make_pattern] needs to know of the
    numeral of a natural number. *)
Lemma int_of_str_of_Z z : int_of_str (str_of_Z z) = Some z.
Proof.
  unfold str_of_Z. pose proof (DecimalZ.of_to z) as Hz.
  destruct (Z.to_int z) as [d|d]; cbn [NilZero.string_of_int Z.of_int] in *;
    destruct (nilzero_spec d) as (c & s & Heq & Hc & Hs & Hv); rewrite Heq.
  - unfold int_of_str. rewrite str_strip_no_space.
    2:{ cbn. rewrite (isdigit_not_space c Hc). cbn.
        eapply str_forall_impl; [apply isdigit_not_space|done]. }
    assert (unsigned_value (String c s) = Some z) as Hu
      by (cbn [unsigned_value]; by rewrite Hv, Hz).
    destruct c as [[] [] [] [] [] [] [] []]; try done.
  - unfold int_of_str. rewrite str_strip_no_space.
    2:{ cbn. rewrite (isdigit_not_space c Hc). cbn.
        eapply str_forall_impl; [apply isdigit_not_space|done]. }
    cbn [unsigned_value]. rewrite Hv. cbn. by rewrite Hz.
Qed.


#[global] Instance str_of_Z_inj : Inj eq eq str_of_Z.
Proof.
  intros a b Hab. apply (f_equal int_of_str) in Hab.
  rewrite !int_of_str_of_Z in Hab. by injection Hab.
Qed.






(** * [Task._reshape_data], [_set_channel_type] and [channel_io_type] *)

(** What [reshape_data] returns: the data in two dimensions, with as many
    elements as before, laid out as the layout says. *)
Lemma reshape_data_ok number_of_channels shape layout data samples_per_channel :
  reshape_data number_of_channels shape layout
    = Ok (data, samples_per_channel) ->
  number_of_channels <> 0 /\
  samples_per_channel * number_of_channels = np_size shape /\
  data = (if String.eqb layout "group_by_scan_number"
          then [samples_per_channel; number_of_channels]
          else [number_of_channels; samples_per_channel]).
Proof.
  unfold reshape_data.
  destruct (number_of_channels =? 0) eqn:Hz; [done|].
  apply Z.eqb_neq in Hz. intros Hres. split; [done|].
  destruct shape as [|n [|m [|]]]; [done| | |done].
  - unfold np_reshape in Hres. cbn [np_size foldr] in *.
    destruct (number_of_channels =? 1) eqn:Hone;
      [apply Z.eqb_eq in Hone as ->|];
      destruct (String.eqb layout "group_by_scan_number");
      match type of Hres with
      | context [?a =? ?b] => destruct (Z.eqb_spec a b) as [Heq|]; [|done]
      end; cbn in Hres; injection Hres as <- <-; split; (lia || done).
  - cbn [np_size foldr].
    destruct (String.eqb layout "group_by_scan_number").
    + destruct (Z.eqb_spec m number_of_channels) as [->|]; [|done].
      injection Hres as <- <-. split; [lia|done].
    + destruct (Z.eqb_spec n number_of_channels) as [->|]; [|done].
      injection Hres as <- <-. split; [lia|done].
Qed.

(** Sequencing in [py], unfolded. *)
Lemma py_bind_unfold {D A B : Type} (m : py (D:=D) A) (k : A -> py B)
    (st : D * world) :
  (m ≫= k) st =
  match m st with
  | (Ok a, st') => k a st'
  | (Raise e, st') => (Raise e, st')
  | (OutOfFuel, st') => (OutOfFuel, st')
  end.
Proof. reflexivity. Qed.

Lemma get_number_of_channels_range {D : Type} (txt : pytext pyarg)
    (lib : libnidaqmx_funcs D) (error_map : gmap Z string) (self : pyarg)
    (st st' : D * world) (n : Z) :
  get_number_of_channels txt lib error_map self st = (Ok n, st') ->
  0 <= n < 2 ^ 32.
Proof.
  unfold get_number_of_channels. rewrite py_bind_unfold.
  destruct (CALL txt lib error_map _ _ st) as [[[r0 o]| |] st1]; [|done..].
  cbn. intros [= <- _]. unfold uInt32_value. apply Z.mod_pos_bound. lia.
Qed.

(** X8: when [_reshape_data] returns, the task has a number of channels
    that is not zero, the data it returns has two dimensions and as many
    elements as the data it was given, laid out by [layout], and the
    samples per channel times the channels is the number of elements. *)
Theorem _reshape_data_shape {D : Type} (txt : pytext pyarg)
    (lib : libnidaqmx_funcs D) (error_map : gmap Z string) (self : pyarg)
    (shape : list Z) (layout : string) (st st' : D * world)
    (data : list Z) (samples_per_channel : Z) :
  _reshape_data txt lib error_map self shape layout st
    = (Ok (data, samples_per_channel), st') ->
  exists number_of_channels,
    0 < number_of_channels < 2 ^ 32 /\
    samples_per_channel * number_of_channels = np_size shape /\
    np_size data = np_size shape /\
    data = (if String.eqb layout "group_by_scan_number"
            then [samples_per_channel; number_of_channels]
            else [number_of_channels; samples_per_channel]).
Proof.
  unfold _reshape_data. rewrite py_bind_unfold.
  destruct (get_number_of_channels txt lib error_map self st)
    as [[n| |] st1] eqn:Hn;
    [|done..].
  apply get_number_of_channels_range in Hn. unfold py_lift.
  intros [= Hres <-]. apply reshape_data_ok in Hres as (Hnz & Hsize & ->).
  exists n. split; [lia|]. split; [done|]. split; [|done].
  destruct (String.eqb layout "group_by_scan_number"); cbn; lia.
Qed.

(** X9: data that [reshape_data] has laid out passes through it
    unchanged. *)
Theorem reshape_data_idempotent (number_of_channels : Z) (shape : list Z)
    (layout : string) (data : list Z) (samples_per_channel : Z) :
  reshape_data number_of_channels shape layout
    = Ok (data, samples_per_channel) ->
  reshape_data number_of_channels data layout
    = Ok (data, samples_per_channel).
Proof.
  intros (Hnz & _ & ->)%reshape_data_ok. unfold reshape_data.
  apply Z.eqb_neq in Hnz. rewrite Hnz.
  destruct (String.eqb layout "group_by_scan_number"); by rewrite Z.eqb_refl.
Qed.

Lemma reshape_data_idempotent_witness :
  reshape_data 3 [3; 4] "group_by_channel" = Ok ([3; 4], 4) /\
  reshape_data 3 [12] "group_by_scan_number" = Ok ([4; 3], 4) /\
  reshape_data 3 [4; 3] "group_by_scan_number" = Ok ([4; 3], 4).
Proof.
  split; [|split].
  - exact (reshape_data_idempotent 3 [12] "group_by_channel" [3; 4] 4
             eq_refl).
  - reflexivity.
  - exact (reshape_data_idempotent 3 [12] "group_by_scan_number" [4; 3] 4
             eq_refl).
Defined.

(** X10: one-dimensional data of [n] elements is accepted exactly when [n]
    is a multiple of the number of channels; otherwise [reshape] raises
    [ValueError]. *)
Theorem reshape_data_flat (number_of_channels n : Z) (layout : string) :
  0 < number_of_channels -> 0 <= n ->
  ((number_of_channels | n) ->
   exists data,
     reshape_data number_of_channels [n] layout
       = Ok (data, n / number_of_channels)) /\
  (~ (number_of_channels | n) ->
   reshape_data number_of_channels [n] layout = Raise ValueError).
Proof.
  intros Hpos Hn. unfold reshape_data, np_reshape.
  assert ((number_of_channels =? 0) = false) as -> by lia.
  cbn [np_size foldr]. rewrite !Z.mul_1_r.
  split.
  - intros [q ->]. rewrite Z.div_mul by lia.
    destruct (Z.eqb_spec number_of_channels 1) as [->|];
      destruct (String.eqb layout "group_by_scan_number");
      match goal with
      | |- context [?a =? ?b] =>
        assert ((a =? b) = true) as -> by (apply Z.eqb_eq; lia)
      end; cbn; rewrite ?Z.mul_1_r; eauto.
  - intros Hndiv.
    assert (number_of_channels <> 1)
      by (intros ->; apply Hndiv, Z.divide_1_l).
    assert ((number_of_channels =? 1) = false) as -> by lia.
    assert (n / number_of_channels * number_of_channels <> n) as Hne.
    { intros Heq. apply Hndiv. exists (n / number_of_channels). lia. }
    destruct (String.eqb layout "group_by_scan_number");
      match goal with
      | |- context [?a =? ?b] =>
        assert ((a =? b) = false) as -> by (apply Z.eqb_neq; lia)
      end; done.
Qed.

Lemma reshape_data_flat_witness :
  ((4 | 12) -> exists data,
     reshape_data 4 [12] "group_by_scan_number" = Ok (data, 12 / 4)) /\
  (~ (4 | 13) ->
   reshape_data 4 [13] "group_by_scan_number" = Raise ValueError).
Proof.
  split.
  - apply (reshape_data_flat 4 12 "group_by_scan_number"); lia.
  - apply (reshape_data_flat 4 13 "group_by_scan_number"); lia.
Defined.

(** X11: a call of [_set_channel_type] that returns leaves the channel
    type [t], one of the six types, and it returns only if the channel type
    was not set or was [t] already: once set, the channel type never
    changes.  [channel_io_type] then is ['input'] for AI, DI and CI and
    ['output'] for AO, DO and CO, and raises nothing. *)
Theorem _set_channel_type_once (channel_type channel_type' : option string)
    (t : string) :
  _set_channel_type channel_type t = Ok channel_type' ->
  channel_type' = Some t /\
  t ∈ channel_types /\
  (forall t0, channel_type = Some t0 -> t0 = t) /\
  channel_io_type channel_type'
    = IOType (if bool_decide (t ∈ ["AI"; "DI"; "CI"]) then "input"
              else "output").
Proof.
  unfold _set_channel_type. case_bool_decide as Ht; [|done].
  intros Hres.
  assert (channel_type' = Some t /\
          forall t0, channel_type = Some t0 -> t0 = t) as [-> Hsame].
  { destruct channel_type as [t0|].
    - destruct (String.eqb_spec t0 t) as [->|]; [|done].
      injection Hres as <-. split; [done|]. by intros ? [= ->].
    - injection Hres as <-. done. }
  repeat split; [done..|].
  unfold channel_types in Ht.
  repeat (apply elem_of_cons in Ht as [->|Ht]; [done|]).
  by apply elem_of_nil in Ht.
Qed.

Lemma _set_channel_type_once_witness :
  Some "DI" = Some "DI" /\
  "DI" ∈ channel_types /\
  (forall t0, @None string = Some t0 -> t0 = "DI") /\
  channel_io_type (Some "DI")
    = IOType (if bool_decide ("DI" ∈ ["AI"; "DI"; "CI"]) then "input"
              else "output").
Proof.
  exact (_set_channel_type_once None (Some "DI") "DI" eq_refl).
Defined.

Lemma _reshape_data_shape_witness :
  exists number_of_channels,
    0 < number_of_channels < 2 ^ 32 /\
    4 * number_of_channels = np_size [12] /\
    np_size [4; 3] = np_size [12] /\
    [4; 3] = (if String.eqb "group_by_scan_number" "group_by_scan_number"
              then [4; number_of_channels] else [number_of_channels; 4]).
Proof.
  exact (_reshape_data_shape pyarg_text lib_example error_map_example
           (Object "task") [12] "group_by_scan_number" (0%nat, world0)
           (1%nat, world0) [4; 3] 4 eq_refl).
Defined.

(** * [CALL] and its callers *)

Lemma bytes_args (args : list pyarg) :
  (fun a => if isinstance_unicode a then bytes a else a) <$> args
  = bytes <$> args.
Proof. apply list_fmap_ext. by intros _ [] _. Qed.

(** The outcomes of [CALL], for its callers. *)
Lemma CALL_returns {D : Type} (txt : pytext pyarg)
    (lib : libnidaqmx_funcs D) (error_map : gmap Z string) (name : string)
    (args : list pyarg) (d d' : D) (w w' : world)
    (res : result (Z * outcome)) :
  CALL txt lib error_map name args (d, w) = (res, (d', w')) ->
  Forall (fun a => isinstance_unicode a = false) (bytes <$> args) /\
  exists o,
    lib_getattr lib ("DAQmx" +:+ name) (bytes <$> args) d = (o, d') /\
    match res with
    | Ok (r0, o') =>
      o' = o /\ r0 = status o /\ 0 <= r0 /\
      (r0 = 0 -> w' = w) /\
      (0 < r0 -> exists line, stderr w' = stderr w ++ [line])
    | Raise _ => status o <> 0 /\ stderr w' = stderr w
    | OutOfFuel => False
    end.
Proof.
  unfold CALL. rewrite bytes_args. intros Hcall. split.
  { apply Forall_fmap, Forall_forall. by intros []. }
  destruct (lib_getattr lib ("DAQmx" +:+ name) (bytes <$> args) d)
    as [o d1].
  destruct (CHK txt (lib_errors lib d1) error_map (status o)
              ("DAQmx" +:+ name) (bytes <$> args) w) as [res0 w1] eqn:Hchk.
  apply CHK_returns in Hchk.
  exists o. destruct res0 as [r0| |]; injection Hcall as <- <- <-;
    [|done..].
  destruct Hchk as (-> & ? & ? & ?). done.
Qed.



(** The methods that return [CALL(...) == 0]. *)
Lemma CALL_is_zero {D : Type} (txt : pytext pyarg)
    (lib : libnidaqmx_funcs D) (error_map : gmap Z string) (name : string)
    (args : list pyarg) (d d' : D) (w w' : world) (b : bool) :
  ('(r0, _) ← CALL txt lib error_map name args; mret (r0 =? 0)) (d, w)
    = (Ok b, (d', w')) ->
  exists o,
    lib_getattr lib ("DAQmx" +:+ name) (bytes <$> args) d = (o, d') /\
    b = (status o =? 0) /\ 0 <= status o /\
    (b = true -> w' = w) /\
    (b = false -> exists line, stderr w' = stderr w ++ [line]).
Proof.
  rewrite py_bind_unfold.
  destruct (CALL txt lib error_map name args (d, w))
    as [[[r0 o']| |] [d1 w1]] eqn:Hcall; [|done..].
  intros [= <- <- <-].
  apply CALL_returns in Hcall as (_ & o & Hlib & -> & -> & Hnn & Hz & Hpos).
  exists o. repeat split; [done..| |].
  - intros Hb%Z.eqb_eq. by apply Hz.
  - intros Hb%Z.eqb_neq. apply Hpos. lia.
Qed.

(** X13: [start] and [stop] return [True] exactly when the library
    returned the status 0, and then nothing was written; they return
    [False] exactly when it returned a positive status, and then the
    warning has been written to [stderr]; they never return after a
    negative status. *)
Theorem start_stop_status {D : Type} (txt : pytext pyarg)
    (lib : libnidaqmx_funcs D) (error_map : gmap Z string) (self : pyarg)
    (d d' : D) (w w' : world) (b : bool) :
  (start txt lib error_map self (d, w) = (Ok b, (d', w')) ->
   exists o,
     lib_getattr lib "DAQmxStartTask" [bytes self] d = (o, d') /\
     b = (status o =? 0) /\ 0 <= status o /\
     (b = true -> w' = w) /\
     (b = false -> exists line, stderr w' = stderr w ++ [line])) /\
  (stop txt lib error_map self (d, w) = (Ok b, (d', w')) ->
   exists o,
     lib_getattr lib "DAQmxStopTask" [bytes self] d = (o, d') /\
     b = (status o =? 0) /\ 0 <= status o /\
     (b = true -> w' = w) /\
     (b = false -> exists line, stderr w' = stderr w ++ [line])).
Proof.
  split; intros H; by apply CALL_is_zero in H.
Qed.

Lemma start_stop_status_witness :
  (exists o,
     lib_getattr lib_example "DAQmxStartTask" [bytes (Object "task")] 0%nat
       = (o, 1%nat) /\
     true = (status o =? 0) /\ 0 <= status o /\
     (true = true -> world0 = world0) /\
     (true = false -> exists line, stderr world0 = stderr world0 ++ [line]))
  /\
  (exists o,
     lib_getattr lib_example "DAQmxStopTask" [bytes (Object "task")] 0%nat
       = (o, 1%nat) /\
     false = (status o =? 0) /\ 0 <= status o /\
     (false = true ->
      {| stderr := ["DAQmxStopTask(task) warning:" +:+ newline
                    +:+ "  Invalid task" +:+ newline +:+ "  ----------"
                    +:+ newline];
         buffers := [3000; 6000; 12000] |} = world0) /\
     (false = false -> exists line,
        ["DAQmxStopTask(task) warning:" +:+ newline
         +:+ "  Invalid task" +:+ newline +:+ "  ----------" +:+ newline]
        = stderr world0 ++ [line])).
Proof.
  split.
  - exact (proj1 (start_stop_status pyarg_text lib_example error_map_example
                    (Object "task") 0%nat 1%nat world0 world0 true) eq_refl).
  - exact (proj2 (start_stop_status pyarg_text lib_example error_map_example
                    (Object "task") 0%nat 1%nat world0 _ false) eq_refl).
Defined.

Lemma state_map_lookup (DAQmx : DAQmx_t) (state : string) :
  state ∈ state_names <-> is_Some (state_map DAQmx !! state).
Proof.
  rewrite <- elem_of_dom. unfold state_map, state_names.
  rewrite !dom_insert_L, dom_empty_L. set_solver.
Qed.

(** X14: [alter_state] with a state that is not one of the seven names
    raises [ValueError] and calls no function of the library: the driver
    and the world are as before.  When it returns, the state is one of the
    seven names, [DAQmxTaskControl] has been called once with the constant
    of that state, and the result says whether the status was 0. *)
Theorem alter_state_checked {D : Type} (txt : pytext pyarg)
    (lib : libnidaqmx_funcs D) (error_map : gmap Z string)
    (DAQmx : DAQmx_t) (self : pyarg) (state : string) (d : D) (w : world) :
  (state ∉ state_names ->
   alter_state txt lib error_map DAQmx self state (d, w)
     = (Raise ValueError, (d, w))) /\
  (forall b d' w',
     alter_state txt lib error_map DAQmx self state (d, w)
       = (Ok b, (d', w')) ->
     state ∈ state_names /\
     exists state_val o,
       state_map DAQmx !! state = Some state_val /\
       lib_getattr lib "DAQmxTaskControl" [bytes self; Int state_val] d
         = (o, d') /\
       b = (status o =? 0)).
Proof.
  unfold alter_state, _get_map_value, py_lift. split.
  - intros Hstate. rewrite py_bind_unfold.
    destruct (state_map DAQmx !! state) as [v|] eqn:Hv; [|done].
    exfalso. apply Hstate. apply (state_map_lookup DAQmx). by rewrite Hv.
  - intros b d' w'. rewrite py_bind_unfold.
    destruct (state_map DAQmx !! state) as [v|] eqn:Hv; [|done].
    intros (o & Hlib & -> & _)%CALL_is_zero.
    split; [apply (state_map_lookup DAQmx); by rewrite Hv|]. eauto.
Qed.

Lemma alter_state_checked_witness :
  alter_state pyarg_text lib_example error_map_example DAQmx_example
    (Object "task") "pause" (0%nat, world0)
  = (Raise ValueError, (0%nat, world0)) /\
  ("commit" ∈ state_names /\
   exists state_val o,
     state_map DAQmx_example !! "commit" = Some state_val /\
     lib_getattr lib_example "DAQmxTaskControl"
       [bytes (Object "task"); Int state_val] 0%nat = (o, 1%nat) /\
     true = (status o =? 0)).
Proof.
  split.
  - apply (alter_state_checked pyarg_text lib_example error_map_example
             DAQmx_example (Object "task") "pause" 0%nat world0).
    by apply (bool_decide_unpack _).
  - apply (proj2 (alter_state_checked pyarg_text lib_example
                    error_map_example DAQmx_example (Object "task")
                    "commit" 0%nat world0) true 1%nat world0).
    by vm_compute.
Defined.

(** * The lists of names of [device.py], [system.py] and [task.py] *)





















Lemma append_assoc (s1 s2 s3 : string) :
  (s1 +:+ s2) +:+ s3 = s1 +:+ (s2 +:+ s3).
Proof.
  induction s1 as [|c s1 IH]; [done|]. rewrite !append_cons. by f_equal.
Qed.





(** * The lines of [get_info_str] about the channels of a device *)

(** A call that the library answers with the status 0. *)
Lemma CALL_ok {D : Type} (txt : pytext pyarg) (lib : libnidaqmx_funcs D)
    (error_map : gmap Z string) (name : string) (args : list pyarg)
    (d d' : D) (w : world) (o : outcome) :
  lib_getattr lib ("DAQmx" +:+ name) (bytes <$> args) d = (o, d') ->
  status o = 0 ->
  CALL txt lib error_map name args (d, w) = (Ok (0, o), (d', w)).
Proof.
  intros Hlib Hz. unfold CALL. rewrite bytes_args, Hlib, Hz. done.
Qed.












(** * [Device.get_bus_type] and [Task.get_names_of_channels] *)

(** X19: after a call with the status 0, [get_bus_type] returns a name
    that the table of line 234 gives to the value read as [int32], and
    raises [KeyError] with that value when it is none of the seven
    constants of the table; the world is as before in both cases. *)
Theorem get_bus_type_outcome {D : Type} (txt : pytext pyarg)
    (lib : libnidaqmx_funcs D) (error_map : gmap Z string)
    (DAQmx : DAQmx_t) (self : pyarg) (d d' : D) (w : world) (o : outcome) :
  lib_getattr lib "DAQmxGetDevBusType" [bytes self; Object "byref(d)"] d
    = (o, d') ->
  status o = 0 ->
  exists res,
    get_bus_type txt lib error_map DAQmx self (d, w) = (res, (d', w)) /\
    - 2 ^ 31 <= int32_value (out_value o) < 2 ^ 31 /\
    match res with
    | Ok t => (int32_value (out_value o), t) ∈ bus_types DAQmx
    | Raise e =>
      e = KeyError (int32_value (out_value o)) /\
      int32_value (out_value o) ∉ (bus_types DAQmx).*1
    | OutOfFuel => False
    end.
Proof.
  intros Hlib Hz. unfold get_bus_type. rewrite py_bind_unfold.
  rewrite (CALL_ok txt lib error_map "GetDevBusType"
             [self; Object "byref(d)"] d d' w o Hlib Hz).
  assert (- 2 ^ 31 <= int32_value (out_value o) < 2 ^ 31) as Hrange.
  { unfold int32_value.
    pose proof (Z.mod_pos_bound (out_value o + 2 ^ 31) (2 ^ 32)). lia. }
  destruct (bus_type_map DAQmx !! int32_value (out_value o)) as [t|] eqn:Ht.
  - exists (Ok t). split; [done|]. split; [done|].
    apply elem_of_list_to_map_2 in Ht. by apply elem_of_reverse in Ht.
  - exists (Raise (KeyError (int32_value (out_value o)))).
    split; [done|]. split; [done|]. split; [done|].
    apply not_elem_of_list_to_map in Ht.
    by rewrite fmap_reverse, elem_of_reverse in Ht.
Qed.

Lemma get_bus_type_outcome_witness :
  exists res,
    get_bus_type pyarg_text lib_example error_map_example DAQmx_example
      (Bytes "Dev1") (0%nat, world0) = (res, (1%nat, world0)) /\
    - 2 ^ 31 <= int32_value 12345 < 2 ^ 31 /\
    match res with
    | Ok t => (int32_value 12345, t) ∈ bus_types DAQmx_example
    | Raise e =>
      e = KeyError (int32_value 12345) /\
      int32_value 12345 ∉ (bus_types DAQmx_example).*1
    | OutOfFuel => False
    end.
Proof.
  exact (get_bus_type_outcome pyarg_text lib_example error_map_example
           DAQmx_example (Bytes "Dev1") 0%nat 1%nat world0
           {| status := 0; out_value := 12345; out_text := "" |}
           eq_refl eq_refl).
Defined.



(** * The self-test and the reads *)

(** X21: the self-test [_test_make_pattern] passes: none of its seven
    assertions fails, in any order of the set iteration. *)
Theorem _test_make_pattern_passes (set_iter : pyset -> list string) :
  iter_ok set_iter -> _test_make_pattern set_iter = Ok tt.
Proof.
  intros Hit. unfold _test_make_pattern. cbv zeta.
  rewrite !(fun paths =>
              make_pattern_iter_indep set_iter insertion_order paths true
                Hit iter_ok_insertion_order) by by vm_compute.
  by vm_compute.
Qed.

Lemma _test_make_pattern_passes_witness :
  _test_make_pattern insertion_order = Ok tt.
Proof.
  apply (_test_make_pattern_passes insertion_order).
  apply iter_ok_insertion_order.
Defined.

Lemma np_zeros_ok shape data :
  np_zeros shape = Ok data -> data = shape /\ Forall (Z.le 0) shape.
Proof.
  unfold np_zeros. destruct (forallb (Z.leb 0) shape) eqn:Hpos; [|done].
  intros [= <-]. split; [done|].
  induction shape as [|z shape IH]; [constructor|].
  cbn in Hpos. apply andb_true_iff in Hpos as [Hz Hpos].
  constructor; [lia|by apply IH].
Qed.

Lemma slice_stop_whole stop n : 0 <= n -> n <= stop -> slice_stop stop n = n.
Proof. intros Hn Hstop. unfold slice_stop. case_match; lia. Qed.

Lemma slice_stop_bounds stop n :
  0 <= n ->
  0 <= slice_stop stop n <= n /\
  (0 <= stop <= n -> slice_stop stop n = stop).
Proof. intros Hn. unfold slice_stop. case_match; lia. Qed.

(** X22: the array that [AnalogInputTask.read] returns has room for all
    the samples asked for, whatever number of samples the library reports
    as read: the test of line 236 lets the slices through only when they
    take the whole array. *)
Theorem AnalogInputTask_read_shape {D : Type} (txt : pytext pyarg)
    (lib : libnidaqmx_funcs D) (error_map : gmap Z string)
    (DAQmx : DAQmx_t) (self : pyarg) (samples_per_channel : option Z)
    (fill_mode : string) (st st' : D * world) (data : list Z) :
  AnalogInputTask_read txt lib error_map DAQmx self samples_per_channel
    fill_mode st = (Ok data, st') ->
  fill_mode ∈ ["group_by_channel"; "group_by_scan_number"] /\
  exists n number_of_channels,
    (forall n0, samples_per_channel = Some n0 -> n = n0) /\
    0 <= n /\ 0 <= number_of_channels < 2 ^ 32 /\
    data = (if String.eqb fill_mode "group_by_scan_number"
            then [n; number_of_channels] else [number_of_channels; n]).
Proof.
  unfold AnalogInputTask_read, _get_map_value, py_lift.
  rewrite py_bind_unfold.
  destruct (fill_mode_map DAQmx !! fill_mode) as [fill_mode_val|] eqn:Hmap;
    [|done].
  assert (fill_mode ∈ ["group_by_channel"; "group_by_scan_number"]) as Hin.
  { apply (elem_of_dom_2 (D:=gset string)) in Hmap. unfold fill_mode_map in Hmap.
    rewrite !dom_insert_L, dom_empty_L in Hmap. set_solver. }
  rewrite py_bind_unfold.
  destruct (match samples_per_channel with
            | Some n => mret n
            | None => get_samples_per_channel_available txt lib error_map self
            end st) as [[n| |] st1] eqn:Hn; [|done..].
  assert (forall n0, samples_per_channel = Some n0 -> n = n0) as Hsome.
  { intros n0 ->. by injection Hn as <- _. }
  rewrite py_bind_unfold.
  destruct (get_number_of_channels txt lib error_map self st1)
    as [[nch| |] st2] eqn:Hnch; [|done..].
  apply get_number_of_channels_range in Hnch.
  rewrite py_bind_unfold.
  destruct (if String.eqb fill_mode "group_by_scan_number"
            then np_zeros [n; nch] else np_zeros [nch; n])
    as [data0| |] eqn:Hzeros; [|done..].
  assert (0 <= n /\
          data0 = if String.eqb fill_mode "group_by_scan_number"
                  then [n; nch] else [nch; n]) as [Hpos ->].
  { destruct (String.eqb fill_mode "group_by_scan_number");
      apply np_zeros_ok in Hzeros as [-> Hall];
      inversion Hall as [|? ? ? Hall']; inversion Hall'; by subst. }
  rewrite py_bind_unfold.
  match goal with
  | |- context [CALL txt lib error_map "ReadAnalogF64" ?args ?st] =>
    destruct (CALL txt lib error_map "ReadAnalogF64" args st)
      as [[[r0 o]| |] st3]; [|done..]
  end.
  intros Hres. split; [done|]. exists n, nch.
  split; [done|]. split; [done|]. split; [done|].
  destruct (Z.ltb_spec n (int32_value (out_value o))) as [Hlt|Hge].
  - rewrite slice_stop_whole in Hres by lia.
    destruct (String.eqb fill_mode "group_by_scan_number");
      by injection Hres as <- _.
  - by injection Hres as <- _.
Qed.

Lemma AnalogInputTask_read_shape_witness :
  "group_by_scan_number" ∈ ["group_by_channel"; "group_by_scan_number"] /\
  exists n number_of_channels,
    (forall n0, Some 5 = Some n0 -> n = n0) /\
    0 <= n /\ 0 <= number_of_channels < 2 ^ 32 /\
    [5; 3] = (if String.eqb "group_by_scan_number" "group_by_scan_number"
              then [n; number_of_channels] else [number_of_channels; n]).
Proof.
  exact (AnalogInputTask_read_shape pyarg_text lib_example error_map_example
           DAQmx_example (Object "task") (Some 5) "group_by_scan_number"
           (0%nat, world0) (2%nat, world0) [5; 3] eq_refl).
Defined.

(** X23: [CounterInputTask.read] asked for [n] samples returns, when it
    returns, between 0 and [n] samples: as many as the library reports as
    read when that number is between 0 and [n], and all [n] when it is
    larger.  It has called [DAQmxReadCounterU32] once with [n] as the
    number of samples and as the size of the array. *)
Theorem CounterInputTask_read_length {D : Type} (txt : pytext pyarg)
    (lib : libnidaqmx_funcs D) (error_map : gmap Z string) (self : pyarg)
    (n : Z) (d d' : D) (w w' : world) (data : list Z) :
  CounterInputTask_read txt lib error_map self (Some n) (d, w)
    = (Ok data, (d', w')) ->
  0 <= n /\
  exists o len,
    lib_getattr lib "DAQmxReadCounterU32"
      [bytes self; Int n; Object "float64(timeout)";
       Object "data.ctypes.data"; Int n; Object "byref(samples_read)";
       Object "None"] d = (o, d') /\
    data = [len] /\ 0 <= len <= n /\
    (0 <= int32_value (out_value o) <= n ->
     len = int32_value (out_value o)) /\
    (n <= int32_value (out_value o) -> len = n).
Proof.
  unfold CounterInputTask_read, py_lift. rewrite !py_bind_unfold.
  cbn [mret py_ret].
  destruct (np_zeros [n]) as [data0| |] eqn:Hzeros; [|done..].
  apply np_zeros_ok in Hzeros as [-> Hall].
  inversion Hall as [|? ? Hn _]; subst.
  rewrite !py_bind_unfold.
  match goal with
  | |- context [CALL txt lib error_map "ReadCounterU32" ?args ?st] =>
    destruct (CALL txt lib error_map "ReadCounterU32" args st)
      as [[[r0 o]| |] [d1 w1]] eqn:Hcall; [|intros [=]..]
  end.
  apply CALL_returns in Hcall as (_ & o' & Hlib & -> & _).
  intros [= <- <- <-]. split; [done|].
  exists o', (slice_stop (int32_value (out_value o')) n).
  cbn [np_size foldr] in Hlib. rewrite Z.mul_1_r in Hlib.
  split; [done|]. split; [done|].
  destruct (slice_stop_bounds (int32_value (out_value o')) n Hn)
    as [Hb Hexact].
  split; [done|]. split; [done|].
  intros Hle. by apply slice_stop_whole.
Qed.

Lemma CounterInputTask_read_length_witness :
  0 <= 5 /\
  exists o len,
    lib_getattr lib_example "DAQmxReadCounterU32"
      [bytes (Object "task"); Int 5; Object "float64(timeout)";
       Object "data.ctypes.data"; Int 5; Object "byref(samples_read)";
       Object "None"] 0%nat = (o, 1%nat) /\
    [2] = [len] /\ 0 <= len <= 5 /\
    (0 <= int32_value (out_value o) <= 5 ->
     len = int32_value (out_value o)) /\
    (5 <= int32_value (out_value o) -> len = 5).
Proof.
  exact (CounterInputTask_read_length pyarg_text lib_example
           error_map_example (Object "task") 5 0%nat 1%nat world0 world0
           [2] eq_refl).
Defined.

